(** * Biometric voting web application: the ballot casting guard of [app.py]

    A shallow embedding of the database functions, the image capture loop, the
    histogram comparison and the [/register] and [/vote] handlers of [app.py],
    followed by the properties of the ballot casting guard.

    The SQLite database is a pair of tables kept as lists of rows (insertion
    order, duplicates visible); the [voters/] folder is a finite map from file
    names to file contents; the camera is the list of frames it will deliver.
    Every database function of [app.py] opens its own connection and commits
    before it returns, so each of them is one atomic step on the database; the
    one connection that is left open, and the lock it keeps, is the subject of
    the module [Locking]. *)

From Stdlib Require Import ZArith QArith List Bool Lia.
From stdpp Require Import base option list strings gmap fin_maps sorting.

Local Open Scope string_scope.
Local Open Scope Z_scope.

(** ** Database tables ([create_db]) *)

(** A row of [users]: [(id, user_id, face_path, eye_path, has_voted)], in the
    order [SELECT *] returns the columns.  The path columns hold NULL when
    [register] stored a capture that returned [None]. *)
Record User := mkUser {
  u_id : Z;
  user_id : string;
  face_path : option string;
  eye_path : option string;
  has_voted : Z
}.

(** A row of [votes]: [(id, voter_id, candidate)].  The table declares no
    constraint on [voter_id]. *)
Record Vote := mkVote {
  v_id : Z;
  voter_id : string;
  candidate : string
}.

Record DB := mkDB {
  users : list User;
  votes : list Vote
}.

(** [create_db] on a fresh file: both tables empty. *)
Definition create_db : DB := mkDB [] [].

(** INTEGER PRIMARY KEY AUTOINCREMENT: one more than the largest id in use. *)
Definition next_id (ids : list Z) : Z := 1 + foldr Z.max 0 ids.

#[global] Instance User_eq_dec : EqDecision User.
Proof. solve_decision. Defined.

#[global] Instance Vote_eq_dec : EqDecision Vote.
Proof. solve_decision. Defined.

(** ** Database functions *)

Definition user_matches (uid : string) (u : User) : bool :=
  bool_decide (user_id u = uid).

(** [get_user]: [fetchone()] of [SELECT * FROM users WHERE user_id=?]. *)
Definition get_user (db : DB) (uid : string) : option User :=
  find (user_matches uid) (users db).

(** [add_user], on the tables: the INSERT leaves [has_voted] to its DEFAULT
    0; the UNIQUE constraint on [user_id] raises [IntegrityError], caught and
    turned into [False].  The branch that returns [False] does not close its
    connection; what that does to the statements that follow is in
    [Locking.add_user] below. *)
Definition add_user (db : DB) (uid : string) (fp ep : option string) : bool * DB :=
  if existsb (user_matches uid) (users db)
  then (false, db)
  else (true,
        mkDB (users db ++ [mkUser (next_id (map u_id (users db))) uid fp ep 0])
             (votes db)).

Definition set_voted (uid : string) (u : User) : User :=
  if user_matches uid u
  then mkUser (u_id u) (user_id u) (face_path u) (eye_path u) 1
  else u.

(** [mark_voted]: [UPDATE users SET has_voted=1 WHERE user_id=?]; no result. *)
Definition mark_voted (db : DB) (uid : string) : DB :=
  mkDB (map (set_voted uid) (users db)) (votes db).

(** [has_already_voted]: [user[4] == 1 if user else False]. *)
Definition has_already_voted (db : DB) (uid : string) : bool :=
  match get_user db uid with
  | Some user => has_voted user =? 1
  | None => false
  end.

(** [save_vote]: a plain INSERT into [votes]; no result. *)
Definition save_vote (db : DB) (uid cand : string) : DB :=
  mkDB (users db)
       (votes db ++ [mkVote (next_id (map v_id (votes db))) uid cand]).

(** The ballots recorded for a voter. *)
Definition ballots_of (db : DB) (uid : string) : list Vote :=
  filter (fun v => voter_id v = uid) (votes db).

(** The statements that write to the database, and a history of them. *)
Inductive DbOp :=
| OpAddUser (uid : string) (fp ep : option string)
| OpMarkVoted (uid : string)
| OpSaveVote (uid cand : string).

Definition apply_op (db : DB) (op : DbOp) : DB :=
  match op with
  | OpAddUser uid fp ep => (add_user db uid fp ep).2
  | OpMarkVoted uid => mark_voted db uid
  | OpSaveVote uid cand => save_vote db uid cand
  end.

Definition apply_ops (db : DB) (ops : list DbOp) : DB := foldl apply_op db ops.

(** At most one ballot per voter, and a voter with a ballot is marked. *)
Definition one_ballot_each (db : DB) : Prop :=
  ∀ uid, (length (ballots_of db uid) ≤ 1)%nat
         ∧ (ballots_of db uid ≠ [] → has_already_voted db uid = true).

(** ** Images and histograms *)

(** A grayscale image as [cv2.imread(path, 0)] returns it: rows of 8-bit
    intensities. *)
Definition Gray := list (list Z).

(** [cv2.calcHist([img], [0], None, [256], [0, 256])]: for each intensity
    0..255 the number of pixels that have it. *)
Definition calcHist (img : Gray) : list Z :=
  map (fun v => Z.of_nat (length (filter (fun p => p = v) (concat img))))
      (seqZ 0 256).

(** The float literal [0.8] of [compare_images] denotes the double
    3602879701896397 / 2^52; a score is a double too, and doubles compare
    exactly, so the test [score > 0.8] is a comparison of rationals. *)
Definition threshold : Q := 3602879701896397 # 4503599627370496.

(** [score > 0.8] *)
Definition passes (score : Q) : bool := negb (Qle_bool score threshold).

(** ** Responses of the POST handlers *)

Inductive Response :=
| Registered (uid : string)
| UserExists
| AlreadyVoted
| UserNotFound
| VoteRegistered
| VerificationFailed.

Definition render (r : Response) : string :=
  match r with
  | Registered uid => "User " ++ uid ++ " registered successfully!"
  | UserExists => "User already exists!"
  | AlreadyVoted => "You have already voted!"
  | UserNotFound => "User not found!"
  | VoteRegistered => "Vote registered successfully!"
  | VerificationFailed => "Verification failed! Vote not registered."
  end.

#[global] Instance Response_eq_dec : EqDecision Response.
Proof. solve_decision. Defined.

(** ** The OpenCV interface

    The OpenCV calls of [app.py] whose code is not part of the program, and
    the file system under them.  [Color] is a colour region cut from a frame,
    [File] the content of a file on disk.
    - [file_of path] is the file a path names once the operating system has
      resolved it: [user_id] comes from the form as it is, so a path built
      from it may reach a file through "." and ".." and two paths may name
      one file;
    - [imwrite path roi] is the content [cv2.imwrite] leaves at [path], or
      [None] when it writes nothing (the caller ignores its result);
    - [imdecode] is the decoding half of [cv2.imread(path, 0)], [None] for
      content that is not an image;
    - [resize] is [cv2.resize(img, (200, 200))];
    - [compareHist] is [cv2.compareHist(h1, h2, cv2.HISTCMP_CORREL)]. *)
Class OpenCV (Color File : Type) := {
  file_of : string → string;
  imwrite : string → Color → option File;
  imdecode : File → option Gray;
  resize : Gray → Gray;
  compareHist : list Z → list Z → Q
}.

Section Vision.

Context {Color File : Type} `{!OpenCV Color File}.

(** What one iteration of the capture loop gets from the devices:
    [cap.read()]'s flag, the regions [frame[y:y+h, x:x+w]] of the faces and
    of the eyes the cascades detect in the frame, in detection order, and
    the key [cv2.waitKey(1)] would return. *)
Record Frame := mkFrame {
  ret : bool;
  faces : list Color;
  eyes : list Color;
  key : Z
}.

(** The [voters/] folder, a map from files to their content, after
    [cv2.imwrite(file_path, roi)]. *)
Definition store_file (fs : gmap string File) (file_path : string) (roi : Color)
  : gmap string File :=
  match imwrite file_path roi with
  | Some content => <[file_of file_path := content]> fs
  | None => fs
  end.

(** [capture_image].  The result is [None] when the frames run out before
    the loop leaves: the call has not returned.  Otherwise it is the value
    returned (a path, or Python's [None] after ESC), the folder and the
    frames not yet read. *)
Fixpoint capture_image (fs : gmap string File) (cam : list Frame)
    (uid img_type : string)
  : option (option string * gmap string File * list Frame) :=
  match cam with
  | [] => None
  | frame :: cam' =>
      if negb (ret frame) then capture_image fs cam' uid img_type
      else
        let next :=
          if key frame =? 27 then Some (None, fs, cam')
          else capture_image fs cam' uid img_type in
        if String.eqb img_type "face" then
          match faces frame with
          | roi :: _ =>
              let file_path := "voters/faces/" ++ uid ++ ".jpg" in
              Some (Some file_path, store_file fs file_path roi, cam')
          | [] => next
          end
        else if String.eqb img_type "eye" then
          match eyes frame with
          | roi :: _ =>
              let file_path := "voters/eyes/" ++ uid ++ ".jpg" in
              Some (Some file_path, store_file fs file_path roi, cam')
          | [] => next
          end
        else next
  end.

(** [cv2.imread(path, 0)]: [None] for a [None] path, for a missing file and
    for a file that does not decode. *)
Definition imread (fs : gmap string File) (path : option string) : option Gray :=
  match path with
  | Some p => match fs !! file_of p with
              | Some content => imdecode content
              | None => None
              end
  | None => None
  end.

(** [compare_images] *)
Definition compare_images (fs : gmap string File) (img1_path img2_path : option string)
  : bool :=
  match imread fs img1_path, imread fs img2_path with
  | Some img1, Some img2 =>
      let hist1 := calcHist (resize img1) in
      let hist2 := calcHist (resize img2) in
      let score := compareHist hist1 hist2 in
      passes score
  | _, _ => false
  end.

(** The correlation score [compare_images] computes for two decoded
    images. *)
Definition score (img1 img2 : Gray) : Q :=
  compareHist (calcHist (resize img1)) (calcHist (resize img2)).

(** ** The POST handlers, one request at a time *)

Record World := mkWorld {
  w_db : DB;
  w_fs : gmap string File;
  w_cam : list Frame
}.

(** [register], POST branch. *)
Definition register (w : World) (uid : string) : option (Response * World) :=
  match capture_image (w_fs w) (w_cam w) uid "face" with
  | None => None
  | Some (face_path, fs1, cam1) =>
      match capture_image fs1 cam1 uid "eye" with
      | None => None
      | Some (eye_path, fs2, cam2) =>
          let '(ok, db') := add_user (w_db w) uid face_path eye_path in
          Some (if ok then Registered uid else UserExists, mkWorld db' fs2 cam2)
      end
  end.

(** [vote], POST branch. *)
Definition vote (w : World) (uid cand : string) : option (Response * World) :=
  if has_already_voted (w_db w) uid then Some (AlreadyVoted, w)
  else
    match capture_image (w_fs w) (w_cam w) uid "face" with
    | None => None
    | Some (new_face, fs1, cam1) =>
        match capture_image fs1 cam1 uid "eye" with
        | None => None
        | Some (new_eye, fs2, cam2) =>
            match get_user (w_db w) uid with
            | None => Some (UserNotFound, mkWorld (w_db w) fs2 cam2)
            | Some user =>
                let registered_face := face_path user in
                let registered_eye := eye_path user in
                if compare_images fs2 new_face registered_face
                   && compare_images fs2 new_eye registered_eye
                then Some (VoteRegistered,
                           mkWorld (mark_voted (save_vote (w_db w) uid cand) uid)
                                   fs2 cam2)
                else Some (VerificationFailed, mkWorld (w_db w) fs2 cam2)
            end
        end
    end.

Inductive Request :=
| PostRegister (uid : string)
| PostVote (uid cand : string).

Definition handle (w : World) (r : Request) : option (Response * World) :=
  match r with
  | PostRegister uid => register w uid
  | PostVote uid cand => vote w uid cand
  end.

(** Requests served one after the other; [None] when one of them does not
    return. *)
Fixpoint serve (w : World) (rs : list Request) : option (list Response * World) :=
  match rs with
  | [] => Some ([], w)
  | r :: rs' =>
      match handle w r with
      | None => None
      | Some (resp, w') =>
          match serve w' rs' with
          | None => None
          | Some (resps, w'') => Some (resp :: resps, w'')
          end
      end
  end.

End Vision.

Arguments Frame : clear implicits.
Arguments World : clear implicits.

(** ** Requests served concurrently

    Flask serves each request on a thread of its own.  A handler touches the
    shared state only through the database functions (one committed
    transaction each) and through the files, so a run of several requests is
    an interleaving of the steps below: one step per database call, per
    capture and per verification, between the program points of the handler. *)
Section Interleaving.

Context {Color File : Type} `{!OpenCV Color File}.

(** What the threads share. *)
Record Store := mkStore {
  s_db : DB;
  s_fs : gmap string File
}.

(** Program points of [vote]: the next statement to run and the locals it
    needs. *)
Inductive VotePc :=
| AtCheck                                          (* has_already_voted(user_id) *)
| AtCaptureFace                                    (* new_face = capture_image(..) *)
| AtCaptureEye (new_face : option string)          (* new_eye = capture_image(..) *)
| AtLookup (new_face new_eye : option string)      (* user = get_user(user_id) *)
| AtCompare (new_face new_eye : option string) (user : User)
                                                   (* compare_images(..) and .. *)
| AtSave                                           (* save_vote(user_id, candidate) *)
| AtMark                                           (* mark_voted(user_id) *)
| VoteReturned (resp : Response).

(** Program points of [register]. *)
Inductive RegisterPc :=
| AtRegFace                                        (* face_path = capture_image(..) *)
| AtRegEye (face_path : option string)             (* eye_path = capture_image(..) *)
| AtAddUser (face_path eye_path : option string)   (* add_user(..) *)
| RegisterReturned (resp : Response).

(** A request in progress, with the frames its capture loops will read. *)
Inductive Thread :=
| VoteThread (uid cand : string) (cam : list (Frame Color)) (pc : VotePc)
| RegisterThread (uid : string) (cam : list (Frame Color)) (pc : RegisterPc).

Definition spawn (r : Request) (cam : list (Frame Color)) : Thread :=
  match r with
  | PostVote uid cand => VoteThread uid cand cam AtCheck
  | PostRegister uid => RegisterThread uid cam AtRegFace
  end.

Definition response (t : Thread) : option Response :=
  match t with
  | VoteThread _ _ _ (VoteReturned resp) => Some resp
  | RegisterThread _ _ (RegisterReturned resp) => Some resp
  | _ => None
  end.

(** One step of a thread; [None] when it has returned or waits for frames
    that never come. *)
Definition step (st : Store) (t : Thread) : option (Store * Thread) :=
  match t with
  | VoteThread uid cand cam pc =>
      match pc with
      | AtCheck =>
          Some (st, VoteThread uid cand cam
                      (if has_already_voted (s_db st) uid
                       then VoteReturned AlreadyVoted else AtCaptureFace))
      | AtCaptureFace =>
          match capture_image (s_fs st) cam uid "face" with
          | None => None
          | Some (new_face, fs', cam') =>
              Some (mkStore (s_db st) fs',
                    VoteThread uid cand cam' (AtCaptureEye new_face))
          end
      | AtCaptureEye new_face =>
          match capture_image (s_fs st) cam uid "eye" with
          | None => None
          | Some (new_eye, fs', cam') =>
              Some (mkStore (s_db st) fs',
                    VoteThread uid cand cam' (AtLookup new_face new_eye))
          end
      | AtLookup new_face new_eye =>
          Some (st, VoteThread uid cand cam
                      match get_user (s_db st) uid with
                      | None => VoteReturned UserNotFound
                      | Some user => AtCompare new_face new_eye user
                      end)
      | AtCompare new_face new_eye user =>
          Some (st, VoteThread uid cand cam
                      (if compare_images (s_fs st) new_face (face_path user)
                          && compare_images (s_fs st) new_eye (eye_path user)
                       then AtSave else VoteReturned VerificationFailed))
      | AtSave =>
          Some (mkStore (save_vote (s_db st) uid cand) (s_fs st),
                VoteThread uid cand cam AtMark)
      | AtMark =>
          Some (mkStore (mark_voted (s_db st) uid) (s_fs st),
                VoteThread uid cand cam (VoteReturned VoteRegistered))
      | VoteReturned _ => None
      end
  | RegisterThread uid cam pc =>
      match pc with
      | AtRegFace =>
          match capture_image (s_fs st) cam uid "face" with
          | None => None
          | Some (fp, fs', cam') =>
              Some (mkStore (s_db st) fs', RegisterThread uid cam' (AtRegEye fp))
          end
      | AtRegEye fp =>
          match capture_image (s_fs st) cam uid "eye" with
          | None => None
          | Some (ep, fs', cam') =>
              Some (mkStore (s_db st) fs', RegisterThread uid cam' (AtAddUser fp ep))
          end
      | AtAddUser fp ep =>
          let '(ok, db') := add_user (s_db st) uid fp ep in
          Some (mkStore db' (s_fs st),
                RegisterThread uid cam
                  (RegisterReturned (if ok then Registered uid else UserExists)))
      | RegisterReturned _ => None
      end
  end.

Record System := mkSystem {
  sys_store : Store;
  sys_threads : list Thread
}.

(** The scheduler lets thread [i] take its next step. *)
Definition sys_step (sys : System) (i : nat) : option System :=
  match sys_threads sys !! i with
  | None => None
  | Some t =>
      match step (sys_store sys) t with
      | None => None
      | Some (st', t') => Some (mkSystem st' (<[i := t']> (sys_threads sys)))
      end
  end.

(** A schedule names the thread to step, step after step. *)
Fixpoint run (sys : System) (schedule : list nat) : option System :=
  match schedule with
  | [] => Some sys
  | i :: schedule' =>
      match sys_step sys i with
      | None => None
      | Some sys' => run sys' schedule'
      end
  end.

(** The voter is marked as voted / has a ballot in the store. *)
Definition marked (st : Store) (uid : string) : Prop :=
  has_already_voted (s_db st) uid = true.

Definition has_ballot (st : Store) (uid : string) : Prop :=
  ballots_of (s_db st) uid ≠ [].

(** No voter is marked without a ballot, and a thread about to mark its
    voter has stored that voter's ballot. *)
Definition marked_have_ballots (sys : System) : Prop :=
  (∀ uid, marked (sys_store sys) uid → has_ballot (sys_store sys) uid)
  ∧ (∀ uid cand cam, VoteThread uid cand cam AtMark ∈ sys_threads sys →
                     has_ballot (sys_store sys) uid).

(** What a step does to the database, by the statement it runs. *)
Inductive step_effect (st : Store) (t : Thread) (st' : Store) (t' : Thread) : Prop :=
| effect_none :
    s_db st' = s_db st →
    (∀ uid cand cam, t' ≠ VoteThread uid cand cam AtMark) →
    step_effect st t st' t'
| effect_save uid cand cam :
    t = VoteThread uid cand cam AtSave →
    t' = VoteThread uid cand cam AtMark →
    s_db st' = save_vote (s_db st) uid cand →
    step_effect st t st' t'
| effect_mark uid cand cam :
    t = VoteThread uid cand cam AtMark →
    t' = VoteThread uid cand cam (VoteReturned VoteRegistered) →
    s_db st' = mark_voted (s_db st) uid →
    step_effect st t st' t'
| effect_add uid cam fp ep :
    t = RegisterThread uid cam (AtAddUser fp ep) →
    s_db st' = (add_user (s_db st) uid fp ep).2 →
    (∀ uid cand cam, t' ≠ VoteThread uid cand cam AtMark) →
    step_effect st t st' t'.

End Interleaving.

Arguments Store : clear implicits.
Arguments Thread : clear implicits.
Arguments System : clear implicits.

(** ** Connections left open

    Every database function closes its connection before it returns, with
    one exception: the [except] branch of [add_user] (lines 57-58) returns
    with the connection open, inside the transaction the [sqlite3] module
    began for the INSERT, and so with SQLite's write lock still held.  Until
    that connection is collected and closed, a statement of another
    connection that writes waits for its timeout and raises
    [sqlite3.OperationalError] ("database is locked"), which no handler
    catches; statements that only read are served.

    The definitions above give what each statement does to the tables when
    its connection gets the write lock.  This module puts the lock beside the
    tables and serves requests one after the other with it; when the
    interpreter collects the connection left open is not the program's to
    say, so it is an event of its own. *)
Module Locking.

(** What a call does: return a value, or raise [sqlite3.OperationalError]. *)
Inductive Outcome (A : Type) :=
| Returned (a : A)
| OperationalError.

Arguments Returned {A} a.
Arguments OperationalError {A}.

(** The database file: its tables, and whether a connection left open holds
    its write lock. *)
Record Database := mkDatabase {
  tables : DB;
  locked : bool
}.

(** [add_user]: the INSERT raises when the lock is held; when it is refused
    by the UNIQUE constraint the function returns [False] and leaves its
    connection open; otherwise it commits, closes and returns [True]. *)
Definition add_user (d : Database) (uid : string) (fp ep : option string)
  : Outcome bool * Database :=
  if locked d then (OperationalError, d)
  else
    let '(ok, db') := add_user (tables d) uid fp ep in
    if ok then (Returned true, mkDatabase db' false)
    else (Returned false, mkDatabase db' true).

(** [mark_voted] *)
Definition mark_voted (d : Database) (uid : string) : Outcome unit * Database :=
  if locked d then (OperationalError, d)
  else (Returned (), mkDatabase (mark_voted (tables d) uid) false).

(** [save_vote] *)
Definition save_vote (d : Database) (uid cand : string) : Outcome unit * Database :=
  if locked d then (OperationalError, d)
  else (Returned (), mkDatabase (save_vote (tables d) uid cand) false).

(** The connection left open is collected: closing it rolls its transaction
    back and frees the lock. *)
Definition collect (d : Database) : Database := mkDatabase (tables d) false.

Section Served.

Context {Color File : Type} `{!OpenCV Color File}.

Record Server := mkServer {
  sv_database : Database;
  sv_fs : gmap string File;
  sv_cam : list (Frame Color)
}.

(** [register], POST branch; an exception that is not caught ends the
    request (Flask answers 500). *)
Definition register (s : Server) (uid : string) : option (Outcome Response * Server) :=
  match capture_image (sv_fs s) (sv_cam s) uid "face" with
  | None => None
  | Some (face_path, fs1, cam1) =>
      match capture_image fs1 cam1 uid "eye" with
      | None => None
      | Some (eye_path, fs2, cam2) =>
          match add_user (sv_database s) uid face_path eye_path with
          | (Returned ok, d') =>
              Some (Returned (if ok then Registered uid else UserExists),
                    mkServer d' fs2 cam2)
          | (OperationalError, d') => Some (OperationalError, mkServer d' fs2 cam2)
          end
      end
  end.

(** [vote], POST branch. *)
Definition vote (s : Server) (uid cand : string) : option (Outcome Response * Server) :=
  if has_already_voted (tables (sv_database s)) uid then Some (Returned AlreadyVoted, s)
  else
    match capture_image (sv_fs s) (sv_cam s) uid "face" with
    | None => None
    | Some (new_face, fs1, cam1) =>
        match capture_image fs1 cam1 uid "eye" with
        | None => None
        | Some (new_eye, fs2, cam2) =>
            match get_user (tables (sv_database s)) uid with
            | None => Some (Returned UserNotFound, mkServer (sv_database s) fs2 cam2)
            | Some user =>
                let registered_face := face_path user in
                let registered_eye := eye_path user in
                if compare_images fs2 new_face registered_face
                   && compare_images fs2 new_eye registered_eye
                then
                  match save_vote (sv_database s) uid cand with
                  | (OperationalError, d1) =>
                      Some (OperationalError, mkServer d1 fs2 cam2)
                  | (Returned _, d1) =>
                      match mark_voted d1 uid with
                      | (OperationalError, d2) =>
                          Some (OperationalError, mkServer d2 fs2 cam2)
                      | (Returned _, d2) =>
                          Some (Returned VoteRegistered, mkServer d2 fs2 cam2)
                      end
                  end
                else Some (Returned VerificationFailed,
                           mkServer (sv_database s) fs2 cam2)
            end
        end
    end.

Definition handle (s : Server) (r : Request) : option (Outcome Response * Server) :=
  match r with
  | PostRegister uid => register s uid
  | PostVote uid cand => vote s uid cand
  end.

(** What happens at the server: a request arrives, or the connection left
    open is collected. *)
Inductive Event :=
| Post (r : Request)
| Collect.

(** Events in turn, with the outcomes of the requests among them. *)
Fixpoint serve (s : Server) (events : list Event)
  : option (list (Outcome Response) * Server) :=
  match events with
  | [] => Some ([], s)
  | Collect :: events' =>
      serve (mkServer (collect (sv_database s)) (sv_fs s) (sv_cam s)) events'
  | Post r :: events' =>
      match handle s r with
      | None => None
      | Some (out, s') =>
          match serve s' events' with
          | None => None
          | Some (outs, s'') => Some (out :: outs, s'')
          end
      end
  end.

(** The state of the handlers above, with the lock free or held. *)
Definition with_lock (held : bool) (w : World Color File) : Server :=
  mkServer (mkDatabase (w_db w) held) (w_fs w) (w_cam w).


End Served.

Arguments Server : clear implicits.

End Locking.

(** ** The guard as the specification words it *)

(** Outcomes of the specified [tryTransitionToVoted]. *)
Inductive Transition := TransitionOk | TransitionAlreadyVoted | TransitionNotFound.

(** The specified compare-and-set: succeed only if the record exists and its
    status is Eligible, and then set it to Voted. *)
Definition tryTransitionToVoted_spec (db : DB) (uid : string) : Transition * DB :=
  match get_user db uid with
  | None => (TransitionNotFound, db)
  | Some user =>
      if has_voted user =? 1 then (TransitionAlreadyVoted, db)
      else (TransitionOk, mkDB (map (set_voted uid) (users db)) (votes db))
  end.

(** ** A small instance of the OpenCV interface

    Used to run the handlers on concrete requests: every path names a file
    of its own, a file holds the image written to it, an empty file does not
    decode, images are taken to have the
    target size already, and the correlation of two histograms is 1 when they
    are equal and 0 otherwise. *)
Module Sample.

Definition sample_file_of (path : string) : string := path.

Definition sample_imwrite (path : string) (roi : Gray) : option Gray := Some roi.

Definition sample_imdecode (content : Gray) : option Gray :=
  match content with
  | [] => None
  | _ => Some content
  end.

Definition sample_resize (img : Gray) : Gray := img.

Definition sample_compareHist (h1 h2 : list Z) : Q :=
  if decide (h1 = h2) then 1%Q else 0%Q.

#[global] Instance sample_cv : OpenCV Gray Gray := {|
  file_of := sample_file_of;
  imwrite := sample_imwrite;
  imdecode := sample_imdecode;
  resize := sample_resize;
  compareHist := sample_compareHist
|}.

Definition face_a : Gray := [[10; 20]; [30; 40]].
Definition eye_a : Gray := [[5; 5]; [6; 7]].
Definition face_b : Gray := [[200; 210]; [220; 230]].
Definition eye_b : Gray := [[90; 91]; [92; 93]].

(** A frame in which the cascades find one face and one eye, no key
    pressed ([cv2.waitKey] gives -1). *)
Definition seen (face eye : Gray) : Frame Gray := mkFrame true [face] [eye] (-1).

(** A frame with nothing detected while ESC is pressed. *)
Definition escape : Frame Gray := mkFrame true [] [] 27.

(** The state after [create_db]: empty tables, empty folder. *)
Definition fresh (cam : list (Frame Gray)) : World Gray Gray :=
  mkWorld create_db ∅ cam.

(** Voter "v1" enrolled from [face_a] and [eye_a], not yet voted. *)
Definition enrolled_db : DB :=
  mkDB [mkUser 1 "v1" (Some "voters/faces/v1.jpg") (Some "voters/eyes/v1.jpg") 0] [].

Definition enrolled_fs : gmap string Gray :=
  <["voters/eyes/v1.jpg" := eye_a]> (<["voters/faces/v1.jpg" := face_a]> ∅).

(** Voter "v1" after a committed vote for "A". *)
Definition voted_db : DB :=
  mkDB [mkUser 1 "v1" (Some "voters/faces/v1.jpg") (Some "voters/eyes/v1.jpg") 1]
       [mkVote 1 "v1" "A"].

(** The enrolled voter "v1" in front of the camera. *)
Definition at_the_booth : World Gray Gray :=
  mkWorld enrolled_db enrolled_fs [seen face_a eye_a; seen face_a eye_a].

(** The enrolled voter "v1" leaving both captures with ESC. *)
Definition leaving_the_booth : World Gray Gray :=
  mkWorld enrolled_db enrolled_fs [escape; escape].

Definition left_the_booth : World Gray Gray := mkWorld enrolled_db enrolled_fs [].

(** Somebody in front of the camera, nobody enrolled. *)
Definition stranger_at_the_booth : World Gray Gray :=
  fresh [seen face_b eye_b; seen face_b eye_b].

(** Nobody enrolled, both captures left with ESC. *)
Definition stranger_leaving : World Gray Gray := fresh [escape; escape].

(** "v1" has voted for "A". *)
Definition after_the_vote : World Gray Gray := mkWorld voted_db enrolled_fs [].

(** [face_a] with its pixels in another order, and a folder holding both. *)
Definition face_a_rearranged : Gray := [[40; 30]; [20; 10]].

Definition two_faces : gmap string Gray :=
  <["rearranged.jpg" := face_a_rearranged]> (<["face.jpg" := face_a]> ∅).

(** Two concurrent [POST /vote] requests of the enrolled voter "v1", one for
    candidate "A" and one for candidate "B". *)
Definition two_requests : System Gray Gray :=
  mkSystem (mkStore enrolled_db enrolled_fs)
           [spawn (PostVote "v1" "A") [seen face_a eye_a; seen face_a eye_a];
            spawn (PostVote "v1" "B") [seen face_b eye_b; seen face_b eye_b]].

(** Both requests pass the check of line 170 before either reaches
    [mark_voted]. *)
Definition racy_schedule : list nat :=
  [0; 1; 0; 0; 0; 0; 0; 1; 1; 1; 1; 1; 1; 0]%nat.

(** A day at the polls: "v1" registers and votes for "A"; then somebody else
    in front of the camera asks to vote for "B" as "v1". *)
Definition polling_day : World Gray Gray :=
  fresh [seen face_a eye_a; seen face_a eye_a;
         seen face_a eye_a; seen face_a eye_a;
         seen face_b eye_b; seen face_b eye_b].

Definition three_requests : list Request :=
  [PostRegister "v1"; PostVote "v1" "A"; PostVote "v1" "B"].

Definition polls_closed : World Gray Gray :=
  mkWorld voted_db enrolled_fs [seen face_b eye_b; seen face_b eye_b].

(** A request of "v1" that arrives after the vote. *)
Definition late_request : System Gray Gray :=
  mkSystem (mkStore voted_db enrolled_fs) [spawn (PostVote "v1" "B") []].

(** Somebody else in front of the camera, asking to vote as "v1". *)
Definition impostor_at_the_booth : World Gray Gray :=
  mkWorld enrolled_db enrolled_fs [seen face_b eye_b; seen face_b eye_b].

Definition impostor_fs : gmap string Gray :=
  <["voters/eyes/v1.jpg" := eye_b]> (<["voters/faces/v1.jpg" := face_b]> enrolled_fs).

(** "v1" registered with both captures left with ESC, now at the booth. *)
Definition no_template_db : DB := mkDB [mkUser 1 "v1" None None 0] [].

Definition no_template_booth : World Gray Gray :=
  mkWorld no_template_db ∅ [seen face_a eye_a; seen face_a eye_a].

(** A frame that was not read, a frame with a face, and a frame never
    reached. *)
Definition camera_roll : list (Frame Gray) :=
  [mkFrame false [face_b] [] 27; seen face_a eye_a; escape].

(** Somebody else in front of the camera as "v1", who lets the face be
    captured and leaves the eye capture with ESC. *)
Definition impostor_leaving : World Gray Gray :=
  mkWorld enrolled_db enrolled_fs [seen face_b eye_b; escape].


Definition registered_twice : list Locking.Event :=
  [Locking.Post (PostRegister "v1"); Locking.Post (PostRegister "v2");
   Locking.Post (PostVote "v1" "A")].



(** "v1" registers, is registered again by somebody else, and votes. *)
Definition busy_day : World Gray Gray :=
  fresh [seen face_a eye_a; seen face_a eye_a;
         seen face_b eye_b; seen face_b eye_b;
         seen face_a eye_a; seen face_a eye_a].

Definition busy_requests : list Request :=
  [PostRegister "v1"; PostRegister "v1"; PostVote "v1" "A"].

End Sample.

(** ** The results page *)

(** Candidates in the order of SQLite's BINARY collation: byte by byte, a
    proper prefix first. *)
Definition candidate_le (c1 c2 : string) : Prop := String.leb c1 c2 = true.

#[global] Instance candidate_le_dec : RelDecision candidate_le.
Proof. intros c1 c2. unfold candidate_le. apply _. Defined.

(** [COUNT( * )] of the group of a candidate. *)
Definition votes_for (db : DB) (cand : string) : Z :=
  Z.of_nat (length (filter (fun v => candidate v = cand) (votes db))).

(** [get_vote_counts]: [SELECT candidate, COUNT( * ) FROM votes GROUP BY
    candidate]; one row per candidate that has a ballot.  SQLite forms the
    groups by sorting on the candidate, so the rows come out in that order. *)
Definition get_vote_counts (db : DB) : list (string * Z) :=
  map (fun cand => (cand, votes_for db cand))
      (merge_sort candidate_le (remove_dups (map candidate (votes db)))).

(** The count shown for a candidate on the results page; 0 when the
    candidate has no row. *)
Definition shown_count (rows : list (string * Z)) (cand : string) : Z :=
  match find (fun row => bool_decide (row.1 = cand)) rows with
  | Some row => row.2
  | None => 0
  end.

(** ** Requests that may still store a ballot *)

Section Accounting.

Context {Color : Type}.

(** A [vote] thread of the voter that has not yet run [save_vote]. *)
Definition may_save (uid : string) (t : Thread Color) : bool :=
  match t with
  | VoteThread uid' _ _ pc =>
      bool_decide (uid' = uid)
      && match pc with
         | AtMark | VoteReturned _ => false
         | _ => true
         end
  | RegisterThread _ _ _ => false
  end.

Definition one_if (b : bool) : nat := if b then 1%nat else 0%nat.

Definition savers (uid : string) (ts : list (Thread Color)) : nat :=
  length (filter (fun t => may_save uid t = true) ts).

(** What the cascade of the requested kind finds in a frame; nothing for a
    kind other than "face" and "eye". *)
Definition detected (img_type : string) (frame : Frame Color) : list Color :=
  if String.eqb img_type "face" then faces frame
  else if String.eqb img_type "eye" then eyes frame
  else [].

(** A frame the capture loop goes past: not read, or read with nothing
    detected and no ESC. *)
Definition passed_over (img_type : string) (frame : Frame Color) : Prop :=
  ret frame = false ∨ (detected img_type frame = [] ∧ key frame ≠ 27).

(** The file a capture of the given kind writes. *)
Definition capture_path (uid img_type : string) : string :=
  if String.eqb img_type "face" then "voters/faces/" ++ uid ++ ".jpg"
  else "voters/eyes/" ++ uid ++ ".jpg".

End Accounting.

(** ** Facts about the database functions *)

Section Database.

Implicit Types (db : DB) (uid cand : string).

Lemma user_matches_set_voted uid uid' u :
  user_matches uid' (set_voted uid u) = user_matches uid' u.
Proof. unfold set_voted. by destruct (user_matches uid u). Qed.

Lemma find_map_set_voted uid uid' (l : list User) :
  find (user_matches uid') (map (set_voted uid) l)
  = set_voted uid <$> find (user_matches uid') l.
Proof.
  induction l as [|u l IH]; [done|]. simpl.
  rewrite user_matches_set_voted.
  by destruct (user_matches uid' u).
Qed.

Lemma get_user_mark_voted db uid uid' :
  get_user (mark_voted db uid) uid' = set_voted uid <$> get_user db uid'.
Proof. apply find_map_set_voted. Qed.

Lemma get_user_matches db uid u :
  get_user db uid = Some u → user_id u = uid.
Proof.
  unfold get_user. intros Hf. apply find_some in Hf as [_ Hm].
  by apply bool_decide_eq_true in Hm.
Qed.

Lemma has_already_voted_mark_voted db uid uid' :
  has_already_voted (mark_voted db uid) uid'
  = if decide (uid' = uid) then bool_decide (is_Some (get_user db uid))
    else has_already_voted db uid'.
Proof.
  unfold has_already_voted. rewrite get_user_mark_voted.
  destruct (get_user db uid') as [u|] eqn:Hu; simpl.
  - pose proof (get_user_matches _ _ _ Hu) as Hid.
    unfold set_voted, user_matches. rewrite Hid.
    destruct (decide (uid' = uid)) as [->|Hne].
    + rewrite bool_decide_eq_true_2 by done. simpl.
      rewrite Hu. symmetry. apply bool_decide_eq_true_2. by eexists.
    + rewrite bool_decide_eq_false_2 by done. done.
  - destruct (decide (uid' = uid)) as [->|Hne]; [|done].
    rewrite Hu. symmetry. apply bool_decide_eq_false_2. by intros [? ?].
Qed.

Lemma get_user_save_vote db uid cand uid' :
  get_user (save_vote db uid cand) uid' = get_user db uid'.
Proof. done. Qed.

Lemma find_app_user (P : User → bool) (l1 l2 : list User) :
  find P (l1 ++ l2) = match find P l1 with Some u => Some u | None => find P l2 end.
Proof. induction l1 as [|u l1 IH]; [done|]. simpl. by destruct (P u). Qed.

Lemma existsb_find_user (P : User → bool) (l : list User) :
  existsb P l = bool_decide (is_Some (find P l)).
Proof.
  induction l as [|u l IH]; simpl; [done|].
  by destruct (P u).
Qed.

(** What [add_user] returns and stores. *)
Lemma add_user_fresh db uid fp ep :
  get_user db uid = None →
  ∃ id, add_user db uid fp ep
        = (true, mkDB (users db ++ [mkUser id uid fp ep 0]) (votes db)).
Proof.
  intros Hnone. unfold add_user. rewrite existsb_find_user.
  unfold get_user in Hnone. rewrite Hnone.
  rewrite bool_decide_eq_false_2 by (by intros [? ?]). eauto.
Qed.

Lemma add_user_present db uid fp ep u :
  get_user db uid = Some u → add_user db uid fp ep = (false, db).
Proof.
  intros Hsome. unfold add_user. rewrite existsb_find_user.
  unfold get_user in Hsome. rewrite Hsome.
  by rewrite bool_decide_eq_true_2 by (by eexists).
Qed.

(** [add_user] never changes what [get_user] finds for a voter already
    present, whoever is added. *)
Lemma get_user_add_user_present db uid fp ep uid' u :
  get_user db uid' = Some u →
  get_user (add_user db uid fp ep).2 uid' = Some u.
Proof.
  intros Hu. destruct (get_user db uid) as [v|] eqn:Hv.
  - by rewrite (add_user_present _ _ _ _ _ Hv).
  - destruct (add_user_fresh db uid fp ep Hv) as [id ->]. simpl.
    unfold get_user in *. simpl. by rewrite find_app_user, Hu.
Qed.

Lemma has_already_voted_add_user db uid fp ep uid' :
  has_already_voted (add_user db uid fp ep).2 uid' = has_already_voted db uid'.
Proof.
  unfold has_already_voted.
  destruct (get_user db uid') as [u|] eqn:Hu.
  - by rewrite (get_user_add_user_present _ _ _ _ _ _ Hu).
  - destruct (get_user db uid) as [v|] eqn:Hv.
    + rewrite (add_user_present _ _ _ _ _ Hv). simpl. by rewrite Hu.
    + destruct (add_user_fresh db uid fp ep Hv) as [id ->]. simpl.
      unfold get_user in *. simpl. rewrite find_app_user, Hu. simpl.
      by destruct (user_matches uid' _).
Qed.

Lemma votes_add_user db uid fp ep :
  votes (add_user db uid fp ep).2 = votes db.
Proof. unfold add_user. by destruct (existsb _ _). Qed.

Lemma ballots_of_save_vote db uid cand uid' :
  ballots_of (save_vote db uid cand) uid'
  = (ballots_of db uid'
     ++ (if decide (uid = uid')
         then [mkVote (next_id (map v_id (votes db))) uid cand] else []))%list.
Proof.
  unfold ballots_of, save_vote. simpl. rewrite filter_app. f_equal.
Qed.

Lemma ballots_of_mark_voted db uid uid' :
  ballots_of (mark_voted db uid) uid' = ballots_of db uid'.
Proof. done. Qed.

Lemma ballots_of_add_user db uid fp ep uid' :
  ballots_of (add_user db uid fp ep).2 uid' = ballots_of db uid'.
Proof. unfold ballots_of. by rewrite votes_add_user. Qed.

End Database.

(** ** Facts about the handlers *)

Section Handlers.

Context {Color File : Type} `{!OpenCV Color File}.
Implicit Types (w : World Color File) (fs : gmap string File)
  (cam : list (Frame Color)) (uid cand : string).

Lemma passes_iff (s : Q) : passes s = true ↔ (threshold < s)%Q.
Proof.
  unfold passes. rewrite negb_true_iff.
  destruct (Qle_bool s threshold) eqn:Hle.
  - apply Qle_bool_iff in Hle. split; [done|].
    intros Hlt. exfalso. by apply (Qlt_not_le _ _ Hlt).
  - split; [intros _|done].
    apply Qnot_le_lt. intros Hle'. apply Qle_bool_iff in Hle'. congruence.
Qed.

Lemma compare_images_decoded fs p1 p2 img1 img2 :
  imread fs p1 = Some img1 → imread fs p2 = Some img2 →
  compare_images fs p1 p2 = passes (score img1 img2).
Proof. intros H1 H2. unfold compare_images. by rewrite H1, H2. Qed.

Lemma compare_images_no_sample fs p : compare_images fs None p = false.
Proof. done. Qed.

(** [vote] once the already-voted check has let the request through and
    both captures have returned. *)
Lemma vote_after_captures w uid cand new_face fs1 cam1 new_eye fs2 cam2 :
  has_already_voted (w_db w) uid = false →
  capture_image (w_fs w) (w_cam w) uid "face" = Some (new_face, fs1, cam1) →
  capture_image fs1 cam1 uid "eye" = Some (new_eye, fs2, cam2) →
  vote w uid cand
  = match get_user (w_db w) uid with
    | None => Some (UserNotFound, mkWorld (w_db w) fs2 cam2)
    | Some user =>
        if compare_images fs2 new_face (face_path user)
           && compare_images fs2 new_eye (eye_path user)
        then Some (VoteRegistered,
                   mkWorld (mark_voted (save_vote (w_db w) uid cand) uid) fs2 cam2)
        else Some (VerificationFailed, mkWorld (w_db w) fs2 cam2)
    end.
Proof. intros Hv Hf He. unfold vote. by rewrite Hv, Hf, He. Qed.

(** Every way [vote] can return. *)
Lemma vote_returns w uid cand resp w' :
  vote w uid cand = Some (resp, w') →
  (resp = AlreadyVoted ∧ w' = w ∧ has_already_voted (w_db w) uid = true)
  ∨ (has_already_voted (w_db w) uid = false
     ∧ ((resp = UserNotFound ∧ w_db w' = w_db w ∧ get_user (w_db w) uid = None)
        ∨ (resp = VerificationFailed ∧ w_db w' = w_db w
           ∧ is_Some (get_user (w_db w) uid))
        ∨ (resp = VoteRegistered
           ∧ w_db w' = mark_voted (save_vote (w_db w) uid cand) uid
           ∧ is_Some (get_user (w_db w) uid)))).
Proof.
  unfold vote. destruct (has_already_voted (w_db w) uid) eqn:Hv.
  - intros [= <- <-]. by left.
  - destruct (capture_image _ _ _ "face") as [[[nf fs1] cam1]|]; [|done].
    destruct (capture_image fs1 cam1 _ "eye") as [[[ne fs2] cam2]|]; [|done].
    destruct (get_user (w_db w) uid) as [user|] eqn:Hu.
    + destruct (_ && _); intros [= <- <-]; right; split; try done; right.
      * right. by eauto.
      * left. by eauto.
    + intros [= <- <-]. right. split; [done|]. by left.
Qed.

Lemma register_returns w uid resp w' :
  register w uid = Some (resp, w') →
  ∃ fp ep, w_db w' = (add_user (w_db w) uid fp ep).2.
Proof.
  unfold register.
  destruct (capture_image _ _ _ "face") as [[[fp fs1] cam1]|]; [|done].
  destruct (capture_image fs1 cam1 _ "eye") as [[[ep fs2] cam2]|]; [|done].
  destruct (add_user (w_db w) uid fp ep) as [ok db'] eqn:Ha.
  intros [= <- <-]. exists fp, ep. by rewrite Ha.
Qed.

(** A request served alone takes the steps of its thread one after the
    other: the handler and the interleaving model agree. *)
Lemma vote_runs_alone w uid cand resp w' :
  vote w uid cand = Some (resp, w') →
  ∃ n, run (mkSystem (mkStore (w_db w) (w_fs w))
                     [VoteThread uid cand (w_cam w) AtCheck])
           (replicate n 0%nat)
       = Some (mkSystem (mkStore (w_db w') (w_fs w'))
                        [VoteThread uid cand (w_cam w') (VoteReturned resp)]).
Proof.
  unfold vote. destruct (has_already_voted (w_db w) uid) eqn:Hv.
  - intros [= <- <-]. exists 1%nat. simpl. unfold sys_step. simpl. by rewrite Hv.
  - destruct (capture_image _ _ _ "face") as [[[nf fs1] cam1]|] eqn:Hf; [|done].
    destruct (capture_image fs1 cam1 _ "eye") as [[[ne fs2] cam2]|] eqn:He; [|done].
    destruct (get_user (w_db w) uid) as [user|] eqn:Hu.
    + destruct (_ && _) eqn:Hc; intros [= <- <-].
      * exists 7%nat. simpl. unfold sys_step. simpl.
        by rewrite Hv, Hf; simpl; rewrite He; simpl; rewrite Hu; simpl; rewrite Hc.
      * exists 5%nat. simpl. unfold sys_step. simpl.
        by rewrite Hv, Hf; simpl; rewrite He; simpl; rewrite Hu; simpl; rewrite Hc.
    + intros [= <- <-]. exists 4%nat. simpl. unfold sys_step. simpl.
      by rewrite Hv, Hf; simpl; rewrite He; simpl; rewrite Hu.
Qed.

Lemma register_runs_alone w uid resp w' :
  register w uid = Some (resp, w') →
  run (mkSystem (mkStore (w_db w) (w_fs w))
                [RegisterThread uid (w_cam w) AtRegFace])
      [0; 0; 0]%nat
  = Some (mkSystem (mkStore (w_db w') (w_fs w'))
                   [RegisterThread uid (w_cam w') (RegisterReturned resp)]).
Proof.
  unfold register.
  destruct (capture_image _ _ _ "face") as [[[fp fs1] cam1]|] eqn:Hf; [|done].
  destruct (capture_image fs1 cam1 _ "eye") as [[[ep fs2] cam2]|] eqn:He; [|done].
  destruct (add_user (w_db w) uid fp ep) as [ok db'] eqn:Ha.
  intros [= <- <-]. simpl. unfold sys_step. simpl.
  by rewrite Hf; simpl; rewrite He; simpl; rewrite Ha.
Qed.

End Handlers.

(** ** Enrollment *)

Section Enrollment.

Implicit Types (db : DB) (uid : string).

Lemma get_user_apply_op db op uid u :
  get_user db uid = Some u →
  ∃ hv, get_user (apply_op db op) uid
        = Some (mkUser (u_id u) (user_id u) (face_path u) (eye_path u) hv).
Proof.
  intros Hu. destruct op as [uid' fp ep|uid'|uid' cand]; simpl.
  - exists (has_voted u). rewrite (get_user_add_user_present _ _ _ _ _ _ Hu).
    by destruct u.
  - rewrite get_user_mark_voted, Hu. simpl. unfold set_voted.
    destruct (user_matches uid' u); [by exists 1|].
    exists (has_voted u). by destruct u.
  - exists (has_voted u). rewrite get_user_save_vote, Hu. by destruct u.
Qed.

Lemma get_user_apply_ops db ops uid u :
  get_user db uid = Some u →
  ∃ hv, get_user (apply_ops db ops) uid
        = Some (mkUser (u_id u) (user_id u) (face_path u) (eye_path u) hv).
Proof.
  revert db u. induction ops as [|op ops IH]; intros db u Hu.
  - exists (has_voted u). simpl. rewrite Hu. by destruct u.
  - destruct (get_user_apply_op db op uid u Hu) as [hv Hop].
    destruct (IH _ _ Hop) as [hv' Hops]. by exists hv'.
Qed.

End Enrollment.

(** ** Verification *)

Section Verification.

Context {Color File : Type} `{!OpenCV Color File}.
Implicit Types (w : World Color File) (fs : gmap string File)
  (cam : list (Frame Color)) (uid cand : string).

(** Moving pixels around does not change the histogram. *)
Lemma calcHist_rearranged (img1 img2 : Gray) :
  concat img1 ≡ₚ concat img2 → calcHist img1 = calcHist img2.
Proof.
  intros Hperm. unfold calcHist. apply map_ext. intros v.
  f_equal. by rewrite Hperm.
Qed.

(** The file name a capture returns is fixed by the voter and the kind of
    image. *)
Lemma capture_image_path fs cam uid img_type path fs' cam' :
  capture_image fs cam uid img_type = Some (Some path, fs', cam') →
  (img_type = "face" ∧ path = "voters/faces/" ++ uid ++ ".jpg")
  ∨ (img_type = "eye" ∧ path = "voters/eyes/" ++ uid ++ ".jpg").
Proof.
  induction cam as [|frame cam IH]; simpl; [done|].
  destruct (ret frame); simpl; [|done].
  destruct (String.eqb img_type "face") eqn:Hface.
  - apply String.eqb_eq in Hface.
    destruct (faces frame) as [|roi rois].
    + destruct (key frame =? 27); [done|exact IH].
    + intros [= <- _ _]. by left.
  - destruct (String.eqb img_type "eye") eqn:Heye.
    + apply String.eqb_eq in Heye.
      destruct (eyes frame) as [|roi rois].
      * destruct (key frame =? 27); [done|exact IH].
      * intros [= <- _ _]. by right.
    + destruct (key frame =? 27); [done|exact IH].
Qed.

(** When the row of the voter names the files the captures of [vote] have
    just written, as the rows stored by [register] do, each comparison is of
    a file with itself, and the vote is registered as soon as the two files
    decode. *)
Lemma vote_compares_file_with_itself
    w uid cand new_face fs1 cam1 new_eye fs2 cam2 user face eye :
  (∀ h, compareHist h h == 1)%Q →
  has_already_voted (w_db w) uid = false →
  capture_image (w_fs w) (w_cam w) uid "face" = Some (new_face, fs1, cam1) →
  capture_image fs1 cam1 uid "eye" = Some (new_eye, fs2, cam2) →
  get_user (w_db w) uid = Some user →
  face_path user = new_face → eye_path user = new_eye →
  imread fs2 new_face = Some face → imread fs2 new_eye = Some eye →
  vote w uid cand
  = Some (VoteRegistered,
          mkWorld (mark_voted (save_vote (w_db w) uid cand) uid) fs2 cam2).
Proof.
  intros Hself Hv Hf He Hu <- <- Hface Heye.
  rewrite (vote_after_captures _ _ _ _ _ _ _ _ _ Hv Hf He), Hu.
  rewrite (compare_images_decoded _ _ _ _ _ Hface Hface).
  rewrite (compare_images_decoded _ _ _ _ _ Heye Heye).
  assert (Hp : ∀ img, passes (score img img) = true).
  { intros img. apply passes_iff. unfold score. by rewrite Hself. }
  by rewrite !Hp.
Qed.

(** C10. Verification depends only on intensity histograms: two pairs of
    decodable images whose resized histograms are pairwise equal get the same
    answer from [compare_images]; and, correlation of a histogram with itself
    being 1, an image compared with any image of the same resized histogram
    (a rearrangement of its pixels, say) scores 1 and is accepted. *)
Theorem compare_images_histogram_only :
  (∀ fs fs' p1 p2 q1 q2 img1 img2 img1' img2',
      imread fs p1 = Some img1 → imread fs p2 = Some img2 →
      imread fs' q1 = Some img1' → imread fs' q2 = Some img2' →
      calcHist (resize img1) = calcHist (resize img1') →
      calcHist (resize img2) = calcHist (resize img2') →
      compare_images fs p1 p2 = compare_images fs' q1 q2)
  ∧ ((∀ h, compareHist h h == 1)%Q →
     ∀ fs p1 p2 img1 img2,
       imread fs p1 = Some img1 → imread fs p2 = Some img2 →
       (calcHist (resize img1) = calcHist (resize img2)
        ∨ concat (resize img1) ≡ₚ concat (resize img2)) →
       (score img1 img2 == 1)%Q ∧ compare_images fs p1 p2 = true).
Proof.
  split.
  - intros fs fs' p1 p2 q1 q2 img1 img2 img1' img2' H1 H2 H1' H2' Hh1 Hh2.
    rewrite (compare_images_decoded _ _ _ _ _ H1 H2).
    rewrite (compare_images_decoded _ _ _ _ _ H1' H2').
    unfold score. by rewrite Hh1, Hh2.
  - intros Hself fs p1 p2 img1 img2 H1 H2 Hsame.
    assert (Hh : calcHist (resize img1) = calcHist (resize img2)).
    { destruct Hsame as [Hh|Hperm]; [done|]. by apply calcHist_rearranged. }
    assert (Hs : (score img1 img2 == 1)%Q).
    { unfold score. rewrite Hh. apply Hself. }
    split; [done|].
    rewrite (compare_images_decoded _ _ _ _ _ H1 H2).
    apply passes_iff. by rewrite Hs.
Qed.

End Verification.

(** ** Casting a ballot, one request at a time *)

Section Casting.

Context {Color File : Type} `{!OpenCV Color File}.
Implicit Types (w : World Color File) (fs : gmap string File)
  (cam : list (Frame Color)) (uid cand : string).

(** X24. A [vote] request that is answered anything other than
    "Vote registered successfully!" leaves both tables as they were: the
    voter's status is unchanged and no ballot has been added for anyone; and
    where every ballot belongs to a marked voter, the voter has no ballot
    after "Verification failed!" or "User not found!".  (The folder is
    another matter: the captures of the request have written their files.) *)
Theorem vote_failure_leaves_database w uid cand resp w' :
  vote w uid cand = Some (resp, w') →
  resp ≠ VoteRegistered →
  w_db w' = w_db w
  ∧ has_already_voted (w_db w') uid = has_already_voted (w_db w) uid
  ∧ (∀ uid', ballots_of (w_db w') uid' = ballots_of (w_db w) uid')
  ∧ (one_ballot_each (w_db w) → resp ≠ AlreadyVoted →
     ballots_of (w_db w') uid = []).
Proof.
  intros Hvote Hfail.
  destruct (vote_returns _ _ _ _ _ Hvote)
    as [(-> & -> & _)|(Hv & [(_ & Hdb & _)|[(_ & Hdb & _)|(Hr & _)]])];
    try done; rewrite Hdb; repeat split; try done; intros Hinv _;
    destruct (Hinv uid) as [_ Hmarked];
    destruct (ballots_of (w_db w) uid); try done;
    rewrite Hmarked in Hv; done.
Qed.

(** C8 (amended). Unknown voter: for a [user_id] with no row in [users],
    [vote] answers "User not found!" whatever the captures deliver, once
    both captures have returned; the lookup that decides it comes after the
    captures, whose files and frames are consumed, and the database is left
    as it was. *)
Theorem vote_unknown_user w uid cand new_face fs1 cam1 new_eye fs2 cam2 :
  get_user (w_db w) uid = None →
  capture_image (w_fs w) (w_cam w) uid "face" = Some (new_face, fs1, cam1) →
  capture_image fs1 cam1 uid "eye" = Some (new_eye, fs2, cam2) →
  vote w uid cand = Some (UserNotFound, mkWorld (w_db w) fs2 cam2).
Proof.
  intros Hu Hf He.
  assert (Hv : has_already_voted (w_db w) uid = false).
  { unfold has_already_voted. by rewrite Hu. }
  by rewrite (vote_after_captures _ _ _ _ _ _ _ _ _ Hv Hf He), Hu.
Qed.

(** C9 (amended). A failed capture is never accepted: when the request is
    let through the already-voted check and one of its two captures returns
    no image, [vote] returns, without an error and without touching the
    database, "Verification failed!" for an enrolled voter and
    "User not found!" for an unknown one. *)
Theorem failed_capture_is_rejected w uid cand new_face fs1 cam1 new_eye fs2 cam2 :
  has_already_voted (w_db w) uid = false →
  capture_image (w_fs w) (w_cam w) uid "face" = Some (new_face, fs1, cam1) →
  capture_image fs1 cam1 uid "eye" = Some (new_eye, fs2, cam2) →
  new_face = None ∨ new_eye = None →
  vote w uid cand
  = Some (match get_user (w_db w) uid with
          | Some _ => VerificationFailed
          | None => UserNotFound
          end, mkWorld (w_db w) fs2 cam2).
Proof.
  intros Hv Hf He Hnone.
  rewrite (vote_after_captures _ _ _ _ _ _ _ _ _ Hv Hf He).
  destruct (get_user (w_db w) uid) as [user|]; [|done].
  destruct Hnone as [-> | ->].
  - by rewrite compare_images_no_sample.
  - rewrite (compare_images_no_sample fs2 (eye_path user)).
    by rewrite andb_false_r.
Qed.

Lemma one_ballot_each_vote w uid cand resp w' :
  one_ballot_each (w_db w) →
  vote w uid cand = Some (resp, w') →
  one_ballot_each (w_db w').
Proof.
  intros Hinv Hvote.
  destruct (vote_returns _ _ _ _ _ Hvote)
    as [(_ & -> & _)|(Hv & [(_ & -> & _)|[(_ & -> & _)|(_ & -> & Hsome)]])];
    try done.
  intros uid'. rewrite ballots_of_mark_voted, ballots_of_save_vote.
  rewrite has_already_voted_mark_voted, get_user_save_vote.
  destruct (Hinv uid') as [Hle Hmarked].
  destruct (decide (uid = uid')) as [<-|Hne].
  - assert (Hnil : ballots_of (w_db w) uid = []).
    { destruct (ballots_of (w_db w) uid) eqn:Hb; [done|].
      rewrite Hmarked in Hv; done. }
    rewrite Hnil. simpl. split; [lia|]. intros _.
    rewrite decide_True by done. by apply bool_decide_eq_true_2.
  - rewrite app_nil_r. split; [done|].
    rewrite decide_False by done. done.
Qed.

Lemma one_ballot_each_register w uid resp w' :
  one_ballot_each (w_db w) →
  register w uid = Some (resp, w') →
  one_ballot_each (w_db w').
Proof.
  intros Hinv Hreg. destruct (register_returns _ _ _ _ Hreg) as (fp & ep & ->).
  intros uid'. rewrite ballots_of_add_user, has_already_voted_add_user.
  apply Hinv.
Qed.

(** C5 (amended). One ballot per voter rests on the guard of [vote], not on
    the table: [save_vote] always inserts (the voter's ballots grow by the
    new row, and nothing is reported), while requests served one after the
    other keep at most one ballot for every voter, each ballot belonging to a
    voter marked as voted. *)
Theorem ballots_unique_by_guard :
  (∀ db uid cand,
      ∃ ballot, ballots_of (save_vote db uid cand) uid
                = (ballots_of db uid ++ [ballot])%list
                ∧ voter_id ballot = uid ∧ candidate ballot = cand)
  ∧ ∀ w requests responses w',
      one_ballot_each (w_db w) →
      serve w requests = Some (responses, w') →
      one_ballot_each (w_db w').
Proof.
  split.
  - intros db uid cand. eexists. rewrite ballots_of_save_vote.
    rewrite decide_True by done. done.
  - intros w requests. revert w.
    induction requests as [|r requests IH]; intros w responses w' Hinv Hserve.
    + simpl in Hserve. by injection Hserve as <- <-.
    + simpl in Hserve.
      destruct (handle w r) as [[resp w1]|] eqn:Hr; [|done].
      destruct (serve w1 requests) as [[resps w2]|] eqn:Hs; [|done].
      injection Hserve as <- <-.
      apply (IH w1 resps); [|done].
      destruct r as [uid|uid cand]; simpl in Hr.
      * by eapply one_ballot_each_register.
      * by eapply one_ballot_each_vote.
Qed.

End Casting.

(** ** Casting ballots concurrently *)

Section Concurrency.

Context {Color File : Type} `{!OpenCV Color File}.
Implicit Types (st : Store File) (t : Thread Color) (sys : System Color File)
  (uid cand : string).

Lemma elem_of_insert_inv {A} (l : list A) (i : nat) (x y : A) :
  y ∈ <[i := x]> l → y = x ∨ y ∈ l.
Proof.
  revert i. induction l as [|a l IH]; intros [|i] Hin; simpl in Hin;
    try (by right).
  - apply elem_of_cons in Hin as [->|Hin]; [by left|].
    right. by apply elem_of_cons; right.
  - apply elem_of_cons in Hin as [->|Hin]; [right; by apply elem_of_cons; left|].
    destruct (IH _ Hin) as [->|Hl]; [by left|].
    right. by apply elem_of_cons; right.
Qed.

Lemma step_has_effect st t st' t' :
  step st t = Some (st', t') → step_effect st t st' t'.
Proof.
  destruct t as [uid cand cam pc|uid cam pc];
    [destruct pc as [| |nf|nf ne|nf ne user| | |resp]
    |destruct pc as [|fp|fp ep|resp]]; simpl; intros Hstep.
  - injection Hstep as <- <-. apply effect_none; [done|].
    intros ???. by destruct (has_already_voted _ _).
  - destruct (capture_image _ _ _ _) as [[[got fs'] cam']|]; [|done].
    injection Hstep as <- <-. by apply effect_none.
  - destruct (capture_image _ _ _ _) as [[[got fs'] cam']|]; [|done].
    injection Hstep as <- <-. by apply effect_none.
  - injection Hstep as <- <-. apply effect_none; [done|].
    intros ???. by destruct (get_user _ _).
  - injection Hstep as <- <-. apply effect_none; [done|].
    intros ???. by destruct (_ && _).
  - injection Hstep as <- <-. by eapply effect_save.
  - injection Hstep as <- <-. by eapply effect_mark.
  - done.
  - destruct (capture_image _ _ _ _) as [[[got fs'] cam']|]; [|done].
    injection Hstep as <- <-. by apply effect_none.
  - destruct (capture_image _ _ _ _) as [[[got fs'] cam']|]; [|done].
    injection Hstep as <- <-. by apply effect_none.
  - destruct (add_user (s_db st) uid fp ep) as [ok db'] eqn:Ha.
    injection Hstep as <- <-. eapply effect_add; [done| |done].
    simpl. by rewrite Ha.
  - done.
Qed.

Lemma has_ballot_save_vote st st' uid cand uid' :
  s_db st' = save_vote (s_db st) uid cand →
  (uid' = uid ∨ has_ballot st uid') → has_ballot st' uid'.
Proof.
  unfold has_ballot. intros -> Hor. rewrite ballots_of_save_vote.
  destruct Hor as [->|Hb].
  - rewrite decide_True by done. by destruct (ballots_of (s_db st) uid).
  - by destruct (ballots_of (s_db st) uid').
Qed.

Lemma sys_step_preserves sys i sys' :
  marked_have_ballots sys → sys_step sys i = Some sys' → marked_have_ballots sys'.
Proof.
  intros [Hmarked Hpending]. unfold sys_step.
  destruct (sys_threads sys !! i) as [t|] eqn:Ht; [|done].
  destruct (step (sys_store sys) t) as [[st' t']|] eqn:Hstep; [|done].
  intros [= <-]. simpl.
  assert (Hin : t ∈ sys_threads sys) by (apply list_elem_of_lookup; eauto).
  destruct (step_has_effect _ _ _ _ Hstep)
    as [Hdb Hpc|uid cand cam -> -> Hdb|uid cand cam -> -> Hdb|uid cam fp ep -> Hdb Hpc].
  - split; simpl.
    + intros uid. unfold marked, has_ballot. rewrite Hdb. apply Hmarked.
    + intros uid cand cam Hin'. unfold has_ballot. rewrite Hdb.
      apply elem_of_insert_inv in Hin' as [Heq|Hin']; [by destruct (Hpc uid cand cam)|].
      by eapply Hpending.
  - split; simpl.
    + intros uid'. unfold marked. rewrite Hdb. intros Hm.
      eapply has_ballot_save_vote; [done|]. right. by apply Hmarked.
    + intros uid' cand' cam' Hin'.
      apply elem_of_insert_inv in Hin' as [Heq|Hin'].
      * injection Heq as -> -> ->.
        eapply has_ballot_save_vote; [done|]. by left.
      * eapply has_ballot_save_vote; [done|]. right. by eapply Hpending.
  - assert (Hmine : has_ballot (sys_store sys) uid) by (by eapply Hpending).
    split; simpl.
    + intros uid'. unfold marked, has_ballot. rewrite Hdb.
      rewrite has_already_voted_mark_voted, ballots_of_mark_voted.
      destruct (decide (uid' = uid)) as [->|Hne]; [done|]. apply Hmarked.
    + intros uid' cand' cam' Hin'. unfold has_ballot.
      rewrite Hdb, ballots_of_mark_voted.
      apply elem_of_insert_inv in Hin' as [Heq|Hin']; [done|].
      by eapply Hpending.
  - split; simpl.
    + intros uid'. unfold marked, has_ballot. rewrite Hdb.
      rewrite has_already_voted_add_user, ballots_of_add_user. apply Hmarked.
    + intros uid' cand' cam' Hin'. unfold has_ballot.
      rewrite Hdb, ballots_of_add_user.
      apply elem_of_insert_inv in Hin' as [Heq|Hin']; [by destruct (Hpc uid' cand' cam')|].
      by eapply Hpending.
Qed.

(** C3 (amended). The commit is two committed steps, ballot first: in every
    interleaving of [register] and [vote] requests, started where no voter
    is marked without a ballot, no voter is ever marked as voted without a
    ballot of theirs in [votes]; and a [vote] request that answers
    "Vote registered successfully!" has stored the ballot and marked the
    voter.  (Between the two steps the ballot is stored while the voter is
    not yet marked.) *)
Theorem marked_voters_have_ballots :
  (∀ sys schedule sys',
      marked_have_ballots sys →
      run sys schedule = Some sys' →
      ∀ uid, marked (sys_store sys') uid → has_ballot (sys_store sys') uid)
  ∧ ∀ (w : World Color File) uid cand w',
      vote w uid cand = Some (VoteRegistered, w') →
      has_already_voted (w_db w') uid = true
      ∧ ∃ ballot, ballot ∈ ballots_of (w_db w') uid ∧ candidate ballot = cand.
Proof.
  split.
  - intros sys schedule. revert sys.
    induction schedule as [|i schedule IH]; intros sys sys' Hinv Hrun.
    + injection Hrun as <-. apply Hinv.
    + simpl in Hrun. destruct (sys_step sys i) as [sys1|] eqn:Hs; [|done].
      apply (IH sys1); [|done]. by eapply sys_step_preserves.
  - intros w uid cand w' Hvote.
    destruct (vote_returns _ _ _ _ _ Hvote)
      as [(? & _)|(_ & [(? & _)|[(? & _)|(_ & -> & Hsome)]])]; try done.
    split.
    + rewrite has_already_voted_mark_voted, decide_True by done.
      by apply bool_decide_eq_true_2.
    + rewrite ballots_of_mark_voted, ballots_of_save_vote, decide_True by done.
      eexists. split; [apply elem_of_app; right; apply list_elem_of_singleton; done|done].
Qed.

(** C2 (amended). [mark_voted] is the only statement that changes a status,
    and it is an unconditional update that reports nothing: on every voter's
    status it has the effect of the specified compare-and-set (Eligible
    becomes Voted, Voted stays Voted, nothing changes when the record is
    absent), it leaves the ballots alone, and [add_user] and [save_vote]
    change no status.  The test for an Eligible status is the separate read
    [has_already_voted], true exactly for a record with [has_voted = 1]. *)
Theorem mark_voted_is_unconditional (db : DB) uid :
  (∀ uid', has_already_voted (mark_voted db uid) uid'
           = has_already_voted (tryTransitionToVoted_spec db uid).2 uid')
  ∧ has_already_voted (mark_voted db uid) uid = bool_decide (is_Some (get_user db uid))
  ∧ votes (mark_voted db uid) = votes db
  ∧ (∀ fp ep cand uid',
        has_already_voted (add_user db uid fp ep).2 uid' = has_already_voted db uid'
        ∧ has_already_voted (save_vote db uid cand) uid' = has_already_voted db uid')
  ∧ (has_already_voted db uid = true
     ↔ ∃ user, get_user db uid = Some user ∧ has_voted user = 1).
Proof.
  split; [|split; [|split; [done|split]]].
  - intros uid'. unfold tryTransitionToVoted_spec.
    destruct (get_user db uid) as [user|] eqn:Hu.
    + destruct (has_voted user =? 1) eqn:Hhv; [|done]. simpl.
      rewrite has_already_voted_mark_voted.
      destruct (decide (uid' = uid)) as [->|Hne]; [|done].
      rewrite Hu. unfold has_already_voted. rewrite Hu, Hhv.
      by apply bool_decide_eq_true_2.
    + simpl. rewrite has_already_voted_mark_voted.
      destruct (decide (uid' = uid)) as [->|Hne]; [|done].
      rewrite Hu. unfold has_already_voted. rewrite Hu.
      by apply bool_decide_eq_false_2; intros [? ?].
  - by rewrite has_already_voted_mark_voted, decide_True.
  - intros fp ep cand uid'. by rewrite has_already_voted_add_user.
  - unfold has_already_voted. destruct (get_user db uid) as [user|].
    + rewrite Z.eqb_eq. split; [by eauto|]. by intros (? & [= <-] & ?).
    + split; [done|]. by intros (? & ? & _).
Qed.

End Concurrency.

(** ** The handlers on concrete requests *)

Section Scenarios.

Import Sample.

Lemma sample_self_correlation (h : list Z) : (compareHist h h == 1)%Q.
Proof. simpl. unfold sample_compareHist. by rewrite decide_True. Qed.

Lemma two_requests_start : marked_have_ballots two_requests.
Proof.
  split.
  - intros uid. unfold marked, has_already_voted, get_user. simpl.
    by destruct (user_matches uid _).
  - intros uid cand cam Hin. simpl in Hin.
    repeat (apply elem_of_cons in Hin as [Heq|Hin]; [done|]).
    by apply elem_of_nil in Hin.
Qed.

(** C1. Two concurrent [POST /vote] requests of one enrolled voter who has
    not voted, both let through the already-voted check before either has
    marked the voter, both answer "Vote registered successfully!" and leave
    two ballots of that voter in [votes]. *)
Theorem double_vote_race :
  has_already_voted (s_db (sys_store two_requests)) "v1" = false
  ∧ ballots_of (s_db (sys_store two_requests)) "v1" = []
  ∧ ∃ sys', run two_requests racy_schedule = Some sys'
            ∧ response <$> sys_threads sys'
              = [Some VoteRegistered; Some VoteRegistered]
            ∧ candidate <$> ballots_of (s_db (sys_store sys')) "v1" = ["A"; "B"].
Proof.
  split; [done|]. split; [done|].
  eexists. split; [by vm_compute|]. by vm_compute.
Qed.

(** C2, as stated, fails: a request reaches [mark_voted], and goes on to
    answer "Vote registered successfully!", while the voter is already marked
    as voted; its test of the status was the read of line 170. *)
Lemma mark_voted_follows_prior_read :
  ¬ (∀ schedule sys i uid cand cam,
        run two_requests schedule = Some sys →
        sys_threads sys !! i = Some (VoteThread uid cand cam AtMark) →
        has_already_voted (s_db (sys_store sys)) uid = false).
Proof.
  intros Hclaim.
  specialize (Hclaim (take 13 racy_schedule)).
  destruct (run two_requests (take 13 racy_schedule)) as [sys|] eqn:Hrun;
    [|by vm_compute in Hrun].
  vm_compute in Hrun. injection Hrun as <-.
  by specialize (Hclaim _ 0%nat "v1" "A" [] eq_refl eq_refl).
Qed.

(** C3, as stated, fails: after [save_vote] and before [mark_voted] the
    ballot of a voter is in [votes] while the voter is not marked. *)
Lemma ballot_stored_before_mark :
  ¬ (∀ schedule sys uid,
        run two_requests schedule = Some sys →
        has_ballot (sys_store sys) uid → marked (sys_store sys) uid).
Proof.
  intros Hclaim.
  specialize (Hclaim [0; 0; 0; 0; 0; 0]%nat).
  destruct (run two_requests [0; 0; 0; 0; 0; 0]%nat) as [sys|] eqn:Hrun;
    [|by vm_compute in Hrun].
  vm_compute in Hrun. injection Hrun as <-.
  by specialize (Hclaim _ "v1" eq_refl ltac:(done)).
Qed.

Lemma marked_voters_have_ballots_witness :
  ∃ sys', run two_requests racy_schedule = Some sys'
          ∧ marked (sys_store sys') "v1" ∧ has_ballot (sys_store sys') "v1".
Proof.
  destruct (run two_requests racy_schedule) as [sys'|] eqn:Hrun;
    [|by vm_compute in Hrun].
  exists sys'. split; [done|].
  assert (Hm : marked (sys_store sys') "v1").
  { vm_compute in Hrun. injection Hrun as <-. by vm_compute. }
  split; [done|].
  exact (proj1 marked_voters_have_ballots two_requests racy_schedule sys'
           two_requests_start Hrun "v1" Hm).
Defined.

(** The threshold itself does not pass: [score > 0.8] is strict. *)
Lemma score_at_threshold_refused :
  ¬ (∀ score_face score_eye : Q,
        passes score_face && passes score_eye = true
        ↔ (threshold <= score_face ∧ threshold <= score_eye)%Q).
Proof.
  intros Hclaim. destruct (Hclaim threshold threshold) as [_ Haccept].
  by specialize (Haccept (conj (Qle_refl _) (Qle_refl _))).
Qed.

(** C4. A [POST /vote] for the enrolled voter "v1" made by somebody else,
    whose face and eye score below the threshold against the templates
    enrolled for "v1", is answered "Vote registered successfully!": the
    captures of the request replace the files the row names before they are
    compared, so each captured sample is compared with itself. *)
Theorem impostor_vote_is_registered :
  imread enrolled_fs (Some "voters/faces/v1.jpg") = Some face_a
  ∧ imread enrolled_fs (Some "voters/eyes/v1.jpg") = Some eye_a
  ∧ passes (@score Gray Gray sample_cv face_b face_a) = false
  ∧ passes (@score Gray Gray sample_cv eye_b eye_a) = false
  ∧ ∃ w', vote impostor_at_the_booth "v1" "B" = Some (VoteRegistered, w')
          ∧ candidate <$> ballots_of (w_db w') "v1" = ["B"]
          ∧ imread (w_fs w') (Some "voters/faces/v1.jpg") = Some face_b
          ∧ imread (w_fs w') (Some "voters/eyes/v1.jpg") = Some eye_b.
Proof.
  split; [done|]. split; [done|]. split; [by vm_compute|]. split; [by vm_compute|].
  eexists. split; [by vm_compute|]. by vm_compute.
Qed.

(** C6. A [POST /vote] for the enrolled voter "v1" made by somebody else, who
    lets the face be captured and leaves the eye capture with ESC, is answered
    "Verification failed! Vote not registered." and leaves the tables as they
    were, but not the enrollment: the face capture has replaced the face
    template of "v1", the file the row names. *)
Theorem refused_vote_replaces_template :
  imread enrolled_fs (Some "voters/faces/v1.jpg") = Some face_a
  ∧ ∃ w', vote impostor_leaving "v1" "B" = Some (VerificationFailed, w')
          ∧ w_db w' = enrolled_db
          ∧ imread (w_fs w') (Some "voters/faces/v1.jpg") = Some face_b
          ∧ imread (w_fs w') (Some "voters/eyes/v1.jpg") = Some eye_a.
Proof.
  split; [done|]. eexists. split; [by vm_compute|]. by vm_compute.
Qed.

(** C7. A second [POST /register] of "v1", made by somebody else, is
    answered "User already exists!" and leaves the row of "v1" alone, but the
    enrollment has been overwritten all the same: the captures of the request
    ran before [add_user] refused and have replaced the two image files the
    row names, the templates every later verification of "v1" reads. *)
Theorem second_register_rewrites_files :
  get_user enrolled_db "v1"
  = Some (mkUser 1 "v1" (Some "voters/faces/v1.jpg") (Some "voters/eyes/v1.jpg") 0)
  ∧ imread enrolled_fs (Some "voters/faces/v1.jpg") = Some face_a
  ∧ imread enrolled_fs (Some "voters/eyes/v1.jpg") = Some eye_a
  ∧ ∃ w', register impostor_at_the_booth "v1" = Some (UserExists, w')
          ∧ w_db w' = enrolled_db
          ∧ imread (w_fs w') (Some "voters/faces/v1.jpg") = Some face_b
          ∧ imread (w_fs w') (Some "voters/eyes/v1.jpg") = Some eye_b.
Proof.
  split; [done|]. split; [done|]. split; [done|].
  eexists. split; [by vm_compute|]. by vm_compute.
Qed.

(** C5, as stated, fails: [save_vote] for a voter who has a ballot inserts a
    second one. *)
Lemma save_vote_stores_second_ballot :
  ¬ (∀ db uid cand, (length (ballots_of (save_vote db uid cand) uid) ≤ 1)%nat).
Proof.
  intros Hclaim. specialize (Hclaim voted_db "v1" "B").
  vm_compute in Hclaim. lia.
Qed.

Lemma create_db_one_ballot_each : one_ballot_each create_db.
Proof. intros uid. split; [simpl; lia|done]. Qed.

Lemma ballots_unique_by_guard_witness :
  one_ballot_each
    (apply_ops create_db
       [OpAddUser "v1" (Some "voters/faces/v1.jpg") (Some "voters/eyes/v1.jpg");
        OpSaveVote "v1" "A"; OpMarkVoted "v1"]).
Proof.
  exact (proj2 ballots_unique_by_guard
           (fresh [seen face_a eye_a; seen face_a eye_a;
                   seen face_a eye_a; seen face_a eye_a;
                   seen face_b eye_b; seen face_b eye_b])
           [PostRegister "v1"; PostVote "v1" "A"; PostVote "v1" "B"]
           [Registered "v1"; VoteRegistered; AlreadyVoted]
           (mkWorld voted_db enrolled_fs [seen face_b eye_b; seen face_b eye_b])
           create_db_one_ballot_each eq_refl).
Defined.

Lemma enrolled_one_ballot_each : one_ballot_each enrolled_db.
Proof. intros uid. split; [simpl; lia|done]. Qed.

Lemma vote_failure_leaves_database_witness :
  vote leaving_the_booth "v1" "A" = Some (VerificationFailed, left_the_booth)
  ∧ w_db left_the_booth = w_db leaving_the_booth
  ∧ has_already_voted (w_db left_the_booth) "v1"
    = has_already_voted (w_db leaving_the_booth) "v1"
  ∧ ballots_of (w_db left_the_booth) "v1" = [].
Proof.
  split; [reflexivity|].
  destruct (vote_failure_leaves_database leaving_the_booth "v1" "A"
              VerificationFailed left_the_booth eq_refl ltac:(done))
    as (Hdb & Hstatus & _ & Hnone).
  split; [exact Hdb|]. split; [exact Hstatus|].
  exact (Hnone enrolled_one_ballot_each ltac:(done)).
Defined.

(** C8, as stated, fails: for an unknown voter the lookup does not come at
    the start; the captures run first and leave their files in the folder. *)
Lemma unknown_voter_is_captured_first :
  ¬ (∀ (w : World Gray Gray) uid cand,
        get_user (w_db w) uid = None →
        vote w uid cand = Some (UserNotFound, w)).
Proof.
  intros Hclaim.
  specialize (Hclaim stranger_at_the_booth "ghost" "A" eq_refl).
  apply (f_equal (λ r, match r with
                       | Some (_, w') => w_fs w' !! "voters/faces/ghost.jpg"
                       | None => None
                       end)) in Hclaim.
  by vm_compute in Hclaim.
Qed.

Lemma vote_unknown_user_witness :
  vote stranger_at_the_booth "ghost" "A"
  = Some (UserNotFound,
          mkWorld create_db
            (<["voters/eyes/ghost.jpg" := eye_b]>
               (<["voters/faces/ghost.jpg" := face_b]> ∅)) []).
Proof.
  exact (vote_unknown_user stranger_at_the_booth "ghost" "A"
           (Some "voters/faces/ghost.jpg")
           (<["voters/faces/ghost.jpg" := face_b]> ∅) [seen face_b eye_b]
           (Some "voters/eyes/ghost.jpg")
           (<["voters/eyes/ghost.jpg" := eye_b]>
              (<["voters/faces/ghost.jpg" := face_b]> ∅)) []
           eq_refl eq_refl eq_refl).
Defined.

(** C9, as stated, fails: when the captures return no image for an unknown
    voter the answer is "User not found!", not "Verification failed!". *)
Lemma failed_capture_of_unknown_voter :
  ¬ (∀ (w : World Gray Gray) uid cand new_face fs1 cam1 new_eye fs2 cam2 resp w',
        has_already_voted (w_db w) uid = false →
        capture_image (w_fs w) (w_cam w) uid "face" = Some (new_face, fs1, cam1) →
        capture_image fs1 cam1 uid "eye" = Some (new_eye, fs2, cam2) →
        new_face = None ∨ new_eye = None →
        vote w uid cand = Some (resp, w') →
        resp = VerificationFailed).
Proof.
  intros Hclaim.
  by specialize (Hclaim stranger_leaving "ghost" "A" None ∅ [escape] None ∅ []
                   UserNotFound (mkWorld create_db ∅ [])
                   eq_refl eq_refl eq_refl (or_introl eq_refl) eq_refl).
Qed.

Lemma failed_capture_is_rejected_witness :
  vote leaving_the_booth "v1" "A"
  = Some (VerificationFailed, left_the_booth).
Proof.
  exact (failed_capture_is_rejected leaving_the_booth "v1" "A"
           None enrolled_fs [escape] None enrolled_fs []
           eq_refl eq_refl eq_refl (or_introl eq_refl)).
Defined.

Lemma compare_images_histogram_only_witness :
  face_a ≠ face_a_rearranged
  ∧ compare_images two_faces (Some "face.jpg") (Some "rearranged.jpg")
    = compare_images two_faces (Some "face.jpg") (Some "face.jpg")
  ∧ (score face_a face_a_rearranged == 1)%Q
  ∧ compare_images two_faces (Some "face.jpg") (Some "rearranged.jpg") = true.
Proof.
  split; [done|]. split.
  - exact (proj1 compare_images_histogram_only two_faces two_faces
             (Some "face.jpg") (Some "rearranged.jpg")
             (Some "face.jpg") (Some "face.jpg")
             face_a face_a_rearranged face_a face_a
             eq_refl eq_refl eq_refl eq_refl eq_refl eq_refl).
  - exact (proj2 compare_images_histogram_only sample_self_correlation two_faces
             (Some "face.jpg") (Some "rearranged.jpg") face_a face_a_rearranged
             eq_refl eq_refl (or_introl eq_refl)).
Defined.

End Scenarios.

(** ** The results page *)

Section Tally.

Context {Color File : Type} `{!OpenCV Color File}.
Implicit Types (db : DB) (cand : string) (w : World Color File).

Lemma tally_candidates db :
  (get_vote_counts db).*1
  = merge_sort candidate_le (remove_dups (map candidate (votes db))).
Proof.
  unfold get_vote_counts.
  induction (merge_sort _ _) as [|c l IH]; simpl; [done|by f_equal].
Qed.

Lemma elem_of_tally_candidates db cand :
  cand ∈ (get_vote_counts db).*1 ↔ cand ∈ map candidate (votes db).
Proof.
  rewrite tally_candidates, merge_sort_Permutation. apply elem_of_remove_dups.
Qed.

Lemma votes_for_positive db cand :
  0 < votes_for db cand ↔ cand ∈ map candidate (votes db).
Proof.
  unfold votes_for. induction (votes db) as [|v l IH]; simpl.
  - split; [lia|]. intros Hin. by apply elem_of_nil in Hin.
  - rewrite filter_cons, elem_of_cons. destruct (decide (candidate v = cand)) as [Heq|Hne].
    + simpl. split; [by left|lia].
    + rewrite IH. split; [by right|]. intros [Heq|Hin]; [congruence|done].
Qed.

Lemma find_row (f : string → Z) (cands : list string) cand :
  find (fun row : string * Z => bool_decide (row.1 = cand))
       (map (fun c => (c, f c)) cands)
  = if decide (cand ∈ cands) then Some (cand, f cand) else None.
Proof.
  induction cands as [|c cands IH]; simpl.
  - destruct (decide (cand ∈ [])) as [Hin|_]; [|done].
    by apply elem_of_nil in Hin.
  - rewrite IH. clear IH.
    destruct (decide (cand ∈ c :: cands)) as [Hin|Hnin];
      destruct (decide (cand ∈ cands)) as [Hin'|Hnin'];
      case_bool_decide as Hc; subst; try done.
    + apply elem_of_cons in Hin as [Heq|Hin]; [congruence|done].
    + destruct Hnin. by apply elem_of_cons; left.
    + destruct Hnin. by apply elem_of_cons; right.
    + destruct Hnin. by apply elem_of_cons; left.
Qed.

Lemma shown_count_tally db cand :
  shown_count (get_vote_counts db) cand = votes_for db cand.
Proof.
  unfold shown_count, get_vote_counts. rewrite find_row.
  destruct (decide (cand ∈ _)) as [Hin|Hnin]; [done|].
  rewrite merge_sort_Permutation, elem_of_remove_dups in Hnin.
  rewrite <- votes_for_positive in Hnin.
  unfold votes_for in *. lia.
Qed.

(** X1. The results page lists exactly the candidates that have a ballot,
    each once and each with the number of its ballots. *)
Theorem tally_rows db :
  (∀ cand n, (cand, n) ∈ get_vote_counts db ↔ n = votes_for db cand ∧ 0 < n)
  ∧ NoDup (get_vote_counts db).*1
  ∧ ∀ cand, shown_count (get_vote_counts db) cand
            = Z.of_nat (length (filter (fun v => candidate v = cand) (votes db))).
Proof.
  split; [|split].
  - intros cand n. unfold get_vote_counts. rewrite list_elem_of_fmap. split.
    + intros (c & [= -> ->] & Hin). split; [done|].
      rewrite merge_sort_Permutation, elem_of_remove_dups in Hin.
      by apply votes_for_positive.
    + intros [-> Hpos]. exists cand. split; [done|].
      rewrite merge_sort_Permutation, elem_of_remove_dups.
      by apply votes_for_positive.
  - rewrite tally_candidates, merge_sort_Permutation. apply NoDup_remove_dups.
  - intros cand. apply shown_count_tally.
Qed.

Lemma sum_indicator (cands : list string) (c : string) :
  NoDup cands →
  foldr Z.add 0 (map (fun k => if decide (c = k) then 1 else 0) cands)
  = if decide (c ∈ cands) then 1 else 0.
Proof.
  induction 1 as [|k cands Hnin Hnd IH]; simpl.
  - destruct (decide (c ∈ [])) as [Hin|_]; [|done].
    by apply elem_of_nil in Hin.
  - rewrite IH. clear IH.
    destruct (decide (c ∈ k :: cands)) as [Hin|Hnin'];
      destruct (decide (c ∈ cands)) as [Hin'|Hnin''];
      destruct (decide (c = k)) as [->|Hne]; try done.
    + apply elem_of_cons in Hin as [Heq|Hin]; [congruence|done].
    + destruct Hnin'. by apply elem_of_cons; right.
    + destruct Hnin'. by apply elem_of_cons; left.
Qed.

Lemma sum_counts (l : list Vote) (cands : list string) :
  NoDup cands →
  (∀ v, v ∈ l → candidate v ∈ cands) →
  foldr Z.add 0
    (map (fun k => Z.of_nat (length (filter (fun v => candidate v = k) l))) cands)
  = Z.of_nat (length l).
Proof.
  intros Hnd. induction l as [|v l IH]; intros Hall.
  - clear. induction cands as [|k cands IHc]; simpl in *; [done|by rewrite IHc].
  - assert (Hsplit : ∀ ks,
      foldr Z.add 0
        (map (fun k => Z.of_nat (length (filter (fun v => candidate v = k) (v :: l)))) ks)
      = foldr Z.add 0 (map (fun k => if decide (candidate v = k) then 1 else 0) ks)
        + foldr Z.add 0
            (map (fun k => Z.of_nat (length (filter (fun v => candidate v = k) l))) ks)).
    { induction ks as [|k ks IHk]; simpl; [done|].
      rewrite IHk, filter_cons.
      destruct (decide (candidate v = k)); simpl; lia. }
    rewrite Hsplit, sum_indicator by done.
    rewrite IH by (intros v' Hv'; apply Hall; by apply elem_of_cons; right).
    rewrite decide_True by (apply Hall; by apply elem_of_cons; left).
    simpl. lia.
Qed.

(** X2. The counts on the results page add up to the number of ballots in
    [votes]: every ballot is counted once. *)
Theorem tally_total db :
  foldr Z.add 0 (get_vote_counts db).*2 = Z.of_nat (length (votes db)).
Proof.
  unfold get_vote_counts. rewrite <- list_fmap_compose.
  change (foldr Z.add 0
            (map (fun k => votes_for db k)
                 (merge_sort candidate_le (remove_dups (map candidate (votes db)))))
          = Z.of_nat (length (votes db))).
  unfold votes_for. apply sum_counts.
  - rewrite merge_sort_Permutation. apply NoDup_remove_dups.
  - intros v Hv. rewrite merge_sort_Permutation, elem_of_remove_dups.
    apply list_elem_of_fmap. by exists v.
Qed.

Lemma votes_for_save_vote db uid cand c :
  votes_for (save_vote db uid cand) c
  = votes_for db c + (if decide (c = cand) then 1 else 0).
Proof.
  unfold votes_for, save_vote. simpl.
  rewrite filter_app, length_app, filter_cons. simpl.
  destruct (decide (cand = c)), (decide (c = cand)); simpl; try congruence; lia.
Qed.

(** X3. A [vote] request changes the results page only when it answers
    "Vote registered successfully!", and then the count of the candidate of
    the request grows by one while every other count stays. *)
Theorem vote_moves_tally w uid cand resp w' c :
  vote w uid cand = Some (resp, w') →
  shown_count (get_vote_counts (w_db w')) c
  = shown_count (get_vote_counts (w_db w)) c
    + (if decide (resp = VoteRegistered ∧ c = cand) then 1 else 0).
Proof.
  intros Hvote. rewrite !shown_count_tally.
  destruct (vote_returns _ _ _ _ _ Hvote)
    as [(-> & -> & _)|(_ & [(-> & -> & _)|[(-> & -> & _)|(-> & -> & _)]])].
  - rewrite decide_False by (by intros [? _]). lia.
  - rewrite decide_False by (by intros [? _]). lia.
  - rewrite decide_False by (by intros [? _]). lia.
  - change (votes_for (mark_voted (save_vote (w_db w) uid cand) uid) c)
      with (votes_for (save_vote (w_db w) uid cand) c).
    rewrite votes_for_save_vote.
    destruct (decide (c = cand)) as [->|Hne].
    + by rewrite decide_True.
    + by rewrite decide_False by (by intros [_ ?]).
Qed.

End Tally.

(** ** What no request ever undoes *)

Section History.

Context {Color File : Type} `{!OpenCV Color File}.
Implicit Types (db : DB) (uid cand : string) (w : World Color File)
  (sys : System Color File).

Lemma apply_ops_cons db op ops :
  apply_ops db (op :: ops) = apply_ops (apply_op db op) ops.
Proof. done. Qed.

(** Every database a run of handlers reaches comes from the one it started
    with by the three writing statements. *)
Lemma step_history (st st' : Store File) (t t' : Thread Color) :
  step st t = Some (st', t') → ∃ ops, s_db st' = apply_ops (s_db st) ops.
Proof.
  intros Hstep.
  destruct (step_has_effect _ _ _ _ Hstep)
    as [Hdb _|uid cand cam _ _ Hdb|uid cand cam _ _ Hdb|uid cam fp ep _ Hdb _].
  - by exists [].
  - by exists [OpSaveVote uid cand].
  - by exists [OpMarkVoted uid].
  - by exists [OpAddUser uid fp ep].
Qed.

Lemma apply_ops_app db (ops1 ops2 : list DbOp) :
  apply_ops db (ops1 ++ ops2)%list = apply_ops (apply_ops db ops1) ops2.
Proof. apply foldl_app. Qed.

Lemma run_history sys schedule sys' :
  run sys schedule = Some sys' →
  ∃ ops, s_db (sys_store sys') = apply_ops (s_db (sys_store sys)) ops.
Proof.
  revert sys. induction schedule as [|i schedule IH]; intros sys Hrun.
  - injection Hrun as <-. by exists [].
  - simpl in Hrun. destruct (sys_step sys i) as [sys1|] eqn:Hs; [|done].
    destruct (IH _ Hrun) as [ops2 Hops2].
    unfold sys_step in Hs.
    destruct (sys_threads sys !! i) as [t|]; [|done].
    destruct (step (sys_store sys) t) as [[st' t']|] eqn:Hstep; [|done].
    injection Hs as <-. simpl in Hops2.
    destruct (step_history _ _ _ _ Hstep) as [ops1 Hops1].
    exists (ops1 ++ ops2)%list. by rewrite apply_ops_app, <- Hops1.
Qed.

Lemma handle_history w r resp w' :
  handle w r = Some (resp, w') → ∃ ops, w_db w' = apply_ops (w_db w) ops.
Proof.
  destruct r as [uid|uid cand]; simpl; intros Hr.
  - destruct (register_returns _ _ _ _ Hr) as (fp & ep & ->).
    by exists [OpAddUser uid fp ep].
  - destruct (vote_returns _ _ _ _ _ Hr)
      as [(_ & -> & _)|(_ & [(_ & -> & _)|[(_ & -> & _)|(_ & -> & _)]])].
    + by exists [].
    + by exists [].
    + by exists [].
    + by exists [OpSaveVote uid cand; OpMarkVoted uid].
Qed.

Lemma serve_history w requests responses w' :
  serve w requests = Some (responses, w') →
  ∃ ops, w_db w' = apply_ops (w_db w) ops.
Proof.
  revert w responses. induction requests as [|r requests IH]; intros w responses Hs.
  - injection Hs as <- <-. by exists [].
  - simpl in Hs. destruct (handle w r) as [[resp w1]|] eqn:Hr; [|done].
    destruct (serve w1 requests) as [[resps w2]|] eqn:Hs'; [|done].
    injection Hs as <- <-.
    destruct (handle_history _ _ _ _ Hr) as [ops1 Hops1].
    destruct (IH _ _ Hs') as [ops2 Hops2].
    exists (ops1 ++ ops2)%list. by rewrite apply_ops_app, <- Hops1.
Qed.

Lemma votes_apply_ops db ops : votes db `prefix_of` votes (apply_ops db ops).
Proof.
  revert db. induction ops as [|op ops IH]; intros db; [done|].
  rewrite apply_ops_cons. etrans; [|apply IH].
  destruct op as [uid fp ep|uid|uid cand]; simpl.
  - by rewrite votes_add_user.
  - done.
  - by apply prefix_app_r.
Qed.

Lemma marked_apply_ops db ops uid :
  has_already_voted db uid = true →
  has_already_voted (apply_ops db ops) uid = true.
Proof.
  revert db. induction ops as [|op ops IH]; intros db Hm; [done|].
  rewrite apply_ops_cons. apply IH.
  destruct op as [uid' fp ep|uid'|uid' cand]; simpl.
  - by rewrite has_already_voted_add_user.
  - rewrite has_already_voted_mark_voted.
    destruct (decide (uid = uid')) as [->|Hne]; [|done].
    apply bool_decide_eq_true_2. unfold has_already_voted in Hm.
    by destruct (get_user db uid').
  - done.
Qed.

Lemma user_id_set_voted uid (l : list User) :
  map user_id (map (set_voted uid) l) = map user_id l.
Proof.
  induction l as [|u l IH]; simpl; [done|]. rewrite IH. f_equal.
  unfold set_voted. by destruct (user_matches uid u).
Qed.

Lemma existsb_user_matches uid (l : list User) :
  existsb (user_matches uid) l = false → uid ∉ map user_id l.
Proof.
  induction l as [|u l IH]; simpl; [intros _; apply not_elem_of_nil|].
  intros [Hu Hl]%orb_false_elim. apply not_elem_of_cons. split; [|by apply IH].
  unfold user_matches in Hu. apply bool_decide_eq_false in Hu. congruence.
Qed.

Lemma unique_apply_ops db ops :
  NoDup (map user_id (users db)) →
  NoDup (map user_id (users (apply_ops db ops))).
Proof.
  revert db. induction ops as [|op ops IH]; intros db Hnd; [done|].
  rewrite apply_ops_cons. apply IH.
  destruct op as [uid fp ep|uid|uid cand]; simpl.
  - unfold add_user. destruct (existsb _ _) eqn:Hex; [done|]. simpl.
    rewrite map_app. simpl. apply NoDup_app. split; [done|]. split.
    + intros x Hx [->|Hin%elem_of_nil]%elem_of_cons; [|done].
      by apply (existsb_user_matches _ _ Hex).
    + apply NoDup_singleton.
  - by rewrite user_id_set_voted.
  - done.
Qed.

(** X4. Ballots are only ever appended: whatever requests are handled, one
    after the other or interleaved, the ballots already in [votes] stay where
    they are, unchanged and in the same order. *)
Theorem ballots_are_append_only :
  (∀ w requests responses w',
      serve w requests = Some (responses, w') →
      votes (w_db w) `prefix_of` votes (w_db w'))
  ∧ (∀ sys schedule sys',
        run sys schedule = Some sys' →
        votes (s_db (sys_store sys)) `prefix_of` votes (s_db (sys_store sys'))).
Proof.
  split.
  - intros w requests responses w' Hs.
    destruct (serve_history _ _ _ _ Hs) as [ops ->]. apply votes_apply_ops.
  - intros sys schedule sys' Hrun.
    destruct (run_history _ _ _ Hrun) as [ops ->]. apply votes_apply_ops.
Qed.

(** X5. A voter marked as voted stays marked in every interleaving of
    requests: no statement sets [has_voted] back. *)
Theorem voted_stays_voted sys schedule sys' uid :
  run sys schedule = Some sys' →
  marked (sys_store sys) uid → marked (sys_store sys') uid.
Proof.
  intros Hrun Hm. unfold marked in *.
  destruct (run_history _ _ _ Hrun) as [ops ->]. by apply marked_apply_ops.
Qed.

Lemma serve_marked_answers w requests responses w' uid :
  has_already_voted (w_db w) uid = true →
  serve w requests = Some (responses, w') →
  ∀ i cand, requests !! i = Some (PostVote uid cand) →
            responses !! i = Some AlreadyVoted.
Proof.
  revert w responses. induction requests as [|r requests IH];
    intros w responses Hm Hs i cand Hi; [done|].
  simpl in Hs. destruct (handle w r) as [[resp w1]|] eqn:Hr; [|done].
  destruct (serve w1 requests) as [[resps w2]|] eqn:Hs'; [|done].
  injection Hs as <- <-.
  destruct i as [|i]; simpl in *.
  - injection Hi as ->. simpl in Hr. unfold vote in Hr. rewrite Hm in Hr.
    by injection Hr as <- _.
  - apply (IH w1 resps) with (cand := cand); [|done|done].
    destruct (handle_history _ _ _ _ Hr) as [ops ->]. by apply marked_apply_ops.
Qed.

(** X6. Once a voter is marked as voted, every later [POST /vote] of that
    voter is answered "You have already voted!", whatever requests are served
    in between, and no ballot of that voter is added. *)
Theorem voted_is_final w requests responses w' uid :
  has_already_voted (w_db w) uid = true →
  serve w requests = Some (responses, w') →
  (∀ i cand, requests !! i = Some (PostVote uid cand) →
             responses !! i = Some AlreadyVoted)
  ∧ ballots_of (w_db w') uid = ballots_of (w_db w) uid.
Proof.
  intros Hm Hs. split; [by eapply serve_marked_answers|].
  revert w responses Hm Hs. induction requests as [|r requests IH];
    intros w responses Hm Hs.
  - by injection Hs as <- <-.
  - simpl in Hs. destruct (handle w r) as [[resp w1]|] eqn:Hr; [|done].
    destruct (serve w1 requests) as [[resps w2]|] eqn:Hs'; [|done].
    injection Hs as <- <-.
    assert (Hm1 : has_already_voted (w_db w1) uid = true).
    { destruct (handle_history _ _ _ _ Hr) as [ops ->]. by apply marked_apply_ops. }
    rewrite (IH _ _ Hm1 Hs').
    destruct r as [uid'|uid' cand]; simpl in Hr.
    + destruct (register_returns _ _ _ _ Hr) as (fp & ep & ->).
      apply ballots_of_add_user.
    + destruct (vote_returns _ _ _ _ _ Hr)
        as [(_ & -> & _)|(Hv & [(_ & -> & _)|[(_ & -> & _)|(_ & -> & _)]])];
        try done.
      rewrite ballots_of_mark_voted, ballots_of_save_vote.
      destruct (decide (uid' = uid)) as [->|Hne]; [congruence|apply app_nil_r].
Qed.

(** X23. No second ballot in a sequence: when requests are served one after
    the other and a [POST /vote] of a voter is answered
    "Vote registered successfully!", every later [POST /vote] of that voter
    is answered "You have already voted!". *)
Theorem no_second_vote_in_sequence w requests responses w' uid i j cand1 cand2 :
  serve w requests = Some (responses, w') →
  requests !! i = Some (PostVote uid cand1) →
  responses !! i = Some VoteRegistered →
  (i < j)%nat →
  requests !! j = Some (PostVote uid cand2) →
  responses !! j = Some AlreadyVoted.
Proof.
  revert w responses i j. induction requests as [|r requests IH];
    intros w responses i j Hs Hi Hri Hlt Hj; [done|].
  simpl in Hs. destruct (handle w r) as [[resp w1]|] eqn:Hr; [|done].
  destruct (serve w1 requests) as [[resps w2]|] eqn:Hs'; [|done].
  injection Hs as <- <-.
  destruct j as [|j]; [lia|]. simpl in Hj |- *.
  destruct i as [|i]; simpl in Hi, Hri.
  - injection Hi as ->. injection Hri as ->. simpl in Hr.
    apply (serve_marked_answers w1 requests resps w2 uid) with (cand := cand2);
      [|done|done].
    destruct (vote_returns _ _ _ _ _ Hr)
      as [(? & _)|(_ & [(? & _)|[(? & _)|(_ & -> & Hsome)]])]; try done.
    rewrite has_already_voted_mark_voted, decide_True by done.
    by apply bool_decide_eq_true_2.
  - apply (IH w1 resps i j Hs' Hi Hri); [lia|done].
Qed.

(** X7. The [user_id]s in [users] stay pairwise distinct, whatever requests
    are handled, one after the other or interleaved. *)
Theorem user_ids_stay_unique :
  (∀ w requests responses w',
      NoDup (map user_id (users (w_db w))) →
      serve w requests = Some (responses, w') →
      NoDup (map user_id (users (w_db w'))))
  ∧ (∀ sys schedule sys',
        NoDup (map user_id (users (s_db (sys_store sys)))) →
        run sys schedule = Some sys' →
        NoDup (map user_id (users (s_db (sys_store sys'))))).
Proof.
  split.
  - intros w requests responses w' Hnd Hs.
    destruct (serve_history _ _ _ _ Hs) as [ops ->]. by apply unique_apply_ops.
  - intros sys schedule sys' Hnd Hrun.
    destruct (run_history _ _ _ Hrun) as [ops ->]. by apply unique_apply_ops.
Qed.

End History.

(** ** The capture loop *)

Section Capture.

Context {Color File : Type} `{!OpenCV Color File}.
Implicit Types (fs : gmap string File) (cam : list (Frame Color))
  (uid img_type : string).

(** One iteration of the loop. *)
Lemma capture_image_cons fs frame cam uid img_type :
  capture_image fs (frame :: cam) uid img_type
  = if ret frame then
      match detected img_type frame with
      | roi :: _ =>
          Some (Some (capture_path uid img_type),
                store_file fs (capture_path uid img_type) roi, cam)
      | [] =>
          if key frame =? 27 then Some (None, fs, cam)
          else capture_image fs cam uid img_type
      end
    else capture_image fs cam uid img_type.
Proof.
  simpl. unfold detected, capture_path.
  destruct (ret frame); simpl; [|done].
  destruct (String.eqb img_type "face"); [done|].
  destruct (String.eqb img_type "eye"); done.
Qed.

(** X8. [capture_image] returns at the first frame that is read and shows a
    detection of the requested kind or has ESC pressed, a detection taking
    precedence: the frames before it are passed over, the frames after it are
    left unread; on a detection the first detected region is written to the
    voter's file of that kind and the file name is returned, on ESC nothing is
    written and [None] is returned. *)
Theorem capture_image_returns fs cam uid img_type result fs' cam' :
  capture_image fs cam uid img_type = Some (result, fs', cam') →
  ∃ before frame,
    cam = (before ++ frame :: cam')%list
    ∧ Forall (passed_over img_type) before
    ∧ ret frame = true
    ∧ match detected img_type frame with
      | roi :: _ =>
          result = Some (capture_path uid img_type)
          ∧ fs' = store_file fs (capture_path uid img_type) roi
      | [] => key frame = 27 ∧ result = None ∧ fs' = fs
      end.
Proof.
  induction cam as [|frame cam IH]; [done|].
  rewrite capture_image_cons.
  destruct (ret frame) eqn:Hret.
  - destruct (detected img_type frame) as [|roi rois] eqn:Hdet.
    + destruct (key frame =? 27) eqn:Hkey.
      * intros [= <- <- <-]. exists [], frame. rewrite Hdet.
        apply Z.eqb_eq in Hkey. by repeat split.
      * intros Hrest. destruct (IH Hrest) as (before & f & -> & Hall & Hf).
        exists (frame :: before), f. split; [done|]. split; [|done].
        apply Forall_cons. split; [|done]. right. split; [done|].
        by apply Z.eqb_neq.
    + intros [= <- <- <-]. exists [], frame. rewrite Hdet. by repeat split.
  - intros Hrest. destruct (IH Hrest) as (before & f & -> & Hall & Hf).
    exists (frame :: before), f. split; [done|]. split; [|done].
    apply Forall_cons. split; [by left|done].
Qed.

(** X9. [capture_image] does not return as long as every frame is either not
    read or shows no detection of the requested kind and no ESC; in
    particular it never returns for a kind other than "face" and "eye" unless
    ESC is pressed, and ESC on a frame that was not read is not seen. *)
Theorem capture_image_waits fs cam uid img_type :
  capture_image fs cam uid img_type = None ↔ Forall (passed_over img_type) cam.
Proof.
  induction cam as [|frame cam IH]; [done|].
  rewrite capture_image_cons, Forall_cons, <- IH. unfold passed_over.
  destruct (ret frame).
  - destruct (detected img_type frame) as [|roi rois].
    + destruct (key frame =? 27) eqn:Hkey.
      * apply Z.eqb_eq in Hkey. split; [done|]. by intros [[?|[_ ?]] _].
      * apply Z.eqb_neq in Hkey. split; [by auto|]. by intros [_ ?].
    + split; [done|]. by intros [[?|[? _]] _].
  - split; [by auto|]. by intros [_ ?].
Qed.

(** X10. A capture touches at most one file: when it returns [None] the
    folder is unchanged, and when it returns a path, that path is the voter's
    file name of the requested kind and every file other than the one the
    path names is as before, while that file holds what [cv2.imwrite] made of
    a detected region (or what it held before, when nothing was written). *)
Theorem capture_image_folder fs cam uid img_type result fs' cam' :
  capture_image fs cam uid img_type = Some (result, fs', cam') →
  (result = None → fs' = fs)
  ∧ ∀ path, result = Some path →
      path = capture_path uid img_type
      ∧ (∀ file, file ≠ file_of path → fs' !! file = fs !! file)
      ∧ ∃ roi, fs' !! file_of path = match imwrite path roi with
                                     | Some content => Some content
                                     | None => fs !! file_of path
                                     end.
Proof.
  intros Hcap.
  destruct (capture_image_returns _ _ _ _ _ _ _ Hcap)
    as (before & frame & _ & _ & _ & Hframe).
  destruct (detected img_type frame) as [|roi rois].
  - destruct Hframe as (_ & -> & ->). by split.
  - destruct Hframe as [-> ->]. split; [done|].
    intros path [= <-]. split; [done|]. unfold store_file. split.
    + intros file Hne. destruct (imwrite _ roi); [|done].
      by apply lookup_insert_ne.
    + exists roi. destruct (imwrite _ roi); [|done]. apply lookup_insert_eq.
Qed.

End Capture.

(** ** More on the database functions *)

Section Records.

Implicit Types (db : DB) (uid cand : string).

Lemma set_voted_absent uid (l : list User) :
  find (user_matches uid) l = None → map (set_voted uid) l = l.
Proof.
  induction l as [|u l IH]; simpl; [done|].
  destruct (user_matches uid u) eqn:Hm; [done|].
  intros Hnone. rewrite IH by done. unfold set_voted. by rewrite Hm.
Qed.

Lemma set_voted_twice uid1 uid2 (u : User) :
  set_voted uid1 (set_voted uid2 u) = set_voted uid2 (set_voted uid1 u).
Proof.
  unfold set_voted, user_matches.
  destruct (bool_decide (user_id u = uid1)) eqn:H1,
           (bool_decide (user_id u = uid2)) eqn:H2; simpl;
    rewrite ?H1, ?H2; done.
Qed.

(** X11. [mark_voted] for a [user_id] that has no row changes nothing; done
    twice it is the same as done once; marking two voters gives the same
    database in either order; and it changes no column other than
    [has_voted] and no row's position. *)
Theorem mark_voted_edge_cases db uid uid' :
  (get_user db uid = None → mark_voted db uid = db)
  ∧ mark_voted (mark_voted db uid) uid = mark_voted db uid
  ∧ mark_voted (mark_voted db uid) uid' = mark_voted (mark_voted db uid') uid
  ∧ map (fun u => (u_id u, user_id u, face_path u, eye_path u))
        (users (mark_voted db uid))
    = map (fun u => (u_id u, user_id u, face_path u, eye_path u)) (users db).
Proof.
  destruct db as [us vs]. unfold mark_voted, get_user. simpl.
  split; [|split; [|split]].
  - intros Hnone. by rewrite set_voted_absent.
  - f_equal. rewrite map_map. apply map_ext. intros u.
    unfold set_voted, user_matches.
    destruct (bool_decide (user_id u = uid)) eqn:Hm; simpl; by rewrite Hm.
  - f_equal. rewrite !map_map. apply map_ext. intros u. apply set_voted_twice.
  - rewrite map_map. apply map_ext. intros u. unfold set_voted.
    by destruct (user_matches uid u).
Qed.

End Records.

(** ** More on the handlers *)

Section Guard.

Context {Color File : Type} `{!OpenCV Color File}.
Implicit Types (w : World Color File) (fs : gmap string File)
  (cam : list (Frame Color)) (uid cand : string).

(** X15. A voter whose row lacks a template (a registration where a capture
    was left with ESC stores NULL for it) can never cast a ballot: no [vote]
    request of that voter is answered "Vote registered successfully!". *)
Theorem vote_without_template w uid cand user resp w' :
  get_user (w_db w) uid = Some user →
  face_path user = None ∨ eye_path user = None →
  vote w uid cand = Some (resp, w') →
  resp ≠ VoteRegistered ∧ w_db w' = w_db w.
Proof.
  intros Hu Hnull. unfold vote.
  destruct (has_already_voted (w_db w) uid); [by intros [= <- <-]|].
  destruct (capture_image _ _ _ "face") as [[[nf fs1] cam1]|]; [|done].
  destruct (capture_image fs1 cam1 _ "eye") as [[[ne fs2] cam2]|]; [|done].
  rewrite Hu.
  assert (Hfail : compare_images fs2 nf (face_path user)
                  && compare_images fs2 ne (eye_path user) = false).
  { unfold compare_images. destruct Hnull as [-> | ->]; simpl.
    - by destruct (imread fs2 nf).
    - apply andb_false_intro2. by destruct (imread fs2 ne). }
  rewrite Hfail. by intros [= <- <-].
Qed.

(** X16. A voter registered through [register] is verified against the files
    the [vote] request itself has just written: the row names the very files
    the captures of [vote] write, so whoever is in front of the camera, once
    both captures have written files that decode, the vote is registered
    (the correlation of a histogram with itself being 1). *)
Theorem vote_accepts_any_capture
    w uid cand new_face fs1 cam1 new_eye fs2 cam2 user face eye :
  (∀ h, compareHist h h == 1)%Q →
  has_already_voted (w_db w) uid = false →
  get_user (w_db w) uid = Some user →
  face_path user = Some (capture_path uid "face") →
  eye_path user = Some (capture_path uid "eye") →
  capture_image (w_fs w) (w_cam w) uid "face" = Some (Some new_face, fs1, cam1) →
  capture_image fs1 cam1 uid "eye" = Some (Some new_eye, fs2, cam2) →
  imread fs2 (Some new_face) = Some face → imread fs2 (Some new_eye) = Some eye →
  vote w uid cand
  = Some (VoteRegistered,
          mkWorld (mark_voted (save_vote (w_db w) uid cand) uid) fs2 cam2).
Proof.
  intros Hself Hv Hu Hfp Hep Hf He Hface Heye.
  destruct (capture_image_path _ _ _ _ _ _ _ Hf) as [[_ ->]|[[=] _]].
  destruct (capture_image_path _ _ _ _ _ _ _ He) as [[[=] _]|[_ ->]].
  by eapply vote_compares_file_with_itself.
Qed.

(** X18. A [vote] request of one voter never changes the record or the
    ballots of another voter. *)
Theorem vote_leaves_other_voters w uid cand resp w' uid' :
  vote w uid cand = Some (resp, w') →
  uid' ≠ uid →
  get_user (w_db w') uid' = get_user (w_db w) uid'
  ∧ ballots_of (w_db w') uid' = ballots_of (w_db w) uid'.
Proof.
  intros Hvote Hne.
  destruct (vote_returns _ _ _ _ _ Hvote)
    as [(_ & -> & _)|(_ & [(_ & -> & _)|[(_ & -> & _)|(_ & -> & _)]])];
    try done.
  split.
  - rewrite get_user_mark_voted, get_user_save_vote.
    destruct (get_user (w_db w) uid') as [u|] eqn:Hu; [|done]. simpl.
    unfold set_voted, user_matches.
    rewrite (get_user_matches _ _ _ Hu).
    by rewrite bool_decide_eq_false_2.
  - rewrite ballots_of_mark_voted, ballots_of_save_vote.
    rewrite decide_False by done. apply app_nil_r.
Qed.

(** X19. The number of ballots in [votes] grows by exactly the number of
    "Vote registered successfully!" answers given: a request answered
    anything else stores no ballot, and one answered so stores one. *)
Theorem ballots_match_answers w requests responses w' :
  serve w requests = Some (responses, w') →
  length (votes (w_db w'))
  = (length (votes (w_db w))
     + length (filter (fun resp => resp = VoteRegistered) responses))%nat.
Proof.
  revert w responses. induction requests as [|r requests IH]; intros w responses Hs.
  - injection Hs as <- <-. simpl. lia.
  - simpl in Hs. destruct (handle w r) as [[resp w1]|] eqn:Hr; [|done].
    destruct (serve w1 requests) as [[resps w2]|] eqn:Hs'; [|done].
    injection Hs as <- <-. rewrite (IH _ _ Hs'), filter_cons.
    destruct r as [uid|uid cand]; simpl in Hr.
    + destruct (register_returns _ _ _ _ Hr) as (fp & ep & ->).
      rewrite votes_add_user.
      assert (resp ≠ VoteRegistered).
      { unfold register in Hr.
        destruct (capture_image _ _ _ "face") as [[[? ?] ?]|]; [|done].
        destruct (capture_image _ _ _ "eye") as [[[? ?] ?]|]; [|done].
        destruct (add_user _ _ _ _) as [[] ?]; by injection Hr as <- _. }
      rewrite decide_False by done. lia.
    + destruct (vote_returns _ _ _ _ _ Hr)
        as [(-> & -> & _)|(_ & [(-> & -> & _)|[(-> & -> & _)|(-> & -> & _)]])];
        try (rewrite decide_False by done; lia).
      rewrite decide_True by done. simpl. rewrite length_app. simpl. lia.
Qed.

End Guard.

(** ** The text of the answers *)

Section Answers.

Lemma string_length_app (s1 s2 : string) :
  String.length (s1 ++ s2) = (String.length s1 + String.length s2)%nat.
Proof. induction s1 as [|a s1 IH]; simpl; [done|by rewrite IH]. Qed.

Lemma string_app_inj_l (s1 s2 t : string) : s1 ++ t = s2 ++ t → s1 = s2.
Proof.
  revert s2. induction s1 as [|a s1 IH]; intros [|b s2] Heq.
  - done.
  - apply (f_equal String.length) in Heq.
    rewrite !string_length_app in Heq. simpl in Heq. lia.
  - apply (f_equal String.length) in Heq.
    rewrite !string_length_app in Heq. simpl in Heq. lia.
  - change (String a (s1 ++ t) = String b (s2 ++ t)) in Heq.
    injection Heq as -> Heq. f_equal. by apply IH.
Qed.

Lemma registered_text_differs (uid rest : string) :
  (String.length rest < 25)%nat → uid ++ " registered successfully!" ≠ rest.
Proof.
  intros Hlen Heq. apply (f_equal String.length) in Heq.
  rewrite string_length_app in Heq. simpl in Heq. lia.
Qed.

(** X21. The six answers of the two handlers are told apart by their text:
    two requests get the same text only for the same outcome, and for a
    registration only for the same [user_id]. *)
Theorem render_inj (r1 r2 : Response) : render r1 = render r2 → r1 = r2.
Proof.
  destruct r1 as [uid1| | | | |], r2 as [uid2| | | | |];
    unfold render; intros Heq; try done;
    try (change ("User " ++ ?u ++ ?s) with
           (String "U" (String "s" (String "e" (String "r" (String " " (u ++ s))))))
           in Heq);
    try (injection Heq as Heq).
  - f_equal. by eapply string_app_inj_l.
  - by apply registered_text_differs in Heq; [|simpl; lia].
  - by apply registered_text_differs in Heq; [|simpl; lia].
  - symmetry in Heq. by apply registered_text_differs in Heq; [|simpl; lia].
  - symmetry in Heq. by apply registered_text_differs in Heq; [|simpl; lia].
Qed.

End Answers.

(** ** How many ballots a race can store *)

Section Bound.

Context {Color File : Type} `{!OpenCV Color File}.
Implicit Types (st : Store File) (t : Thread Color) (sys : System Color File)
  (uid : string).

Lemma savers_insert uid (ts : list (Thread Color)) i t t' :
  ts !! i = Some t →
  (savers uid (<[i := t']> ts) + one_if (may_save uid t)
   = savers uid ts + one_if (may_save uid t'))%nat.
Proof.
  unfold savers. revert i. induction ts as [|t0 ts IH]; intros [|i] Hi;
    simpl in Hi; try done.
  - injection Hi as ->. simpl. rewrite !filter_cons.
    destruct (may_save uid t), (may_save uid t'); simpl;
      repeat case_decide; simpl; try done; lia.
  - simpl. rewrite !filter_cons. specialize (IH i Hi).
    case_decide; simpl; lia.
Qed.

Lemma step_stores_once st t st' t' uid :
  step st t = Some (st', t') →
  (length (ballots_of (s_db st') uid) + one_if (may_save uid t')
   ≤ length (ballots_of (s_db st) uid) + one_if (may_save uid t))%nat.
Proof.
  destruct t as [uid' cand cam pc|uid' cam pc];
    [destruct pc as [| |nf|nf ne|nf ne user| | |resp]
    |destruct pc as [|fp|fp ep|resp]]; simpl; intros Hstep.
  - injection Hstep as <- <-. simpl.
    destruct (has_already_voted _ _), (bool_decide _); simpl; lia.
  - destruct (capture_image _ _ _ _) as [[[got fs'] cam']|]; [|done].
    injection Hstep as <- <-. simpl. destruct (bool_decide _); simpl; lia.
  - destruct (capture_image _ _ _ _) as [[[got fs'] cam']|]; [|done].
    injection Hstep as <- <-. simpl. destruct (bool_decide _); simpl; lia.
  - injection Hstep as <- <-. simpl.
    destruct (get_user _ _), (bool_decide _); simpl; lia.
  - injection Hstep as <- <-. simpl.
    destruct (compare_images _ _ _ && compare_images _ _ _), (bool_decide _);
      simpl; lia.
  - injection Hstep as <- <-. simpl. rewrite ballots_of_save_vote, length_app.
    destruct (decide (uid' = uid)) as [->|Hne].
    + rewrite bool_decide_eq_true_2 by done. simpl. lia.
    + rewrite bool_decide_eq_false_2 by done. simpl. lia.
  - injection Hstep as <- <-. simpl. rewrite ballots_of_mark_voted.
    rewrite andb_false_r. simpl. lia.
  - done.
  - destruct (capture_image _ _ _ _) as [[[got fs'] cam']|]; [|done].
    injection Hstep as <- <-. simpl. lia.
  - destruct (capture_image _ _ _ _) as [[[got fs'] cam']|]; [|done].
    injection Hstep as <- <-. simpl. lia.
  - destruct (add_user (s_db st) uid' fp ep) as [ok db'] eqn:Ha.
    injection Hstep as <- <-. simpl.
    replace db' with (add_user (s_db st) uid' fp ep).2 by (by rewrite Ha).
    rewrite ballots_of_add_user. lia.
  - done.
Qed.

(** X22. Every request stores at most one ballot, so a race is bounded by
    the number of requests in flight: in every interleaving, the ballots of a
    voter plus that voter's [vote] requests that have not yet reached
    [save_vote] never exceed what they were at the start. *)
Theorem ballots_bounded_by_requests sys schedule sys' uid :
  run sys schedule = Some sys' →
  (length (ballots_of (s_db (sys_store sys')) uid) + savers uid (sys_threads sys')
   ≤ length (ballots_of (s_db (sys_store sys)) uid) + savers uid (sys_threads sys))%nat.
Proof.
  revert sys. induction schedule as [|i schedule IH]; intros sys Hrun.
  - injection Hrun as <-. lia.
  - simpl in Hrun. destruct (sys_step sys i) as [sys1|] eqn:Hs; [|done].
    etrans; [by apply IH|].
    unfold sys_step in Hs.
    destruct (sys_threads sys !! i) as [t|] eqn:Ht; [|done].
    destruct (step (sys_store sys) t) as [[st' t']|] eqn:Hstep; [|done].
    injection Hs as <-. simpl.
    pose proof (savers_insert uid _ _ _ t' Ht).
    pose proof (step_stores_once _ _ _ _ uid Hstep). lia.
Qed.

End Bound.

(** ** The further properties on concrete requests *)

Section Instances.

Import Sample.

Lemma polling_day_served :
  serve polling_day three_requests
  = Some ([Registered "v1"; VoteRegistered; AlreadyVoted], polls_closed).
Proof. reflexivity. Qed.

Lemma booth_vote_registered :
  vote at_the_booth "v1" "A" = Some (VoteRegistered, after_the_vote).
Proof. reflexivity. Qed.

Lemma vote_moves_tally_witness :
  shown_count (get_vote_counts (w_db after_the_vote)) "A"
  = shown_count (get_vote_counts (w_db at_the_booth)) "A" + 1.
Proof.
  exact (vote_moves_tally at_the_booth "v1" "A" VoteRegistered after_the_vote "A"
           eq_refl).
Defined.

Lemma ballots_are_append_only_witness :
  votes (w_db polling_day) `prefix_of` votes (w_db polls_closed)
  ∧ ∃ sys', run two_requests racy_schedule = Some sys'
            ∧ votes (s_db (sys_store two_requests))
              `prefix_of` votes (s_db (sys_store sys')).
Proof.
  split.
  - exact (proj1 ballots_are_append_only polling_day three_requests
             [Registered "v1"; VoteRegistered; AlreadyVoted] polls_closed eq_refl).
  - destruct (run two_requests racy_schedule) as [sys'|] eqn:Hrun;
      [|by vm_compute in Hrun].
    exists sys'. split; [done|].
    exact (proj2 ballots_are_append_only two_requests racy_schedule sys' Hrun).
Defined.

Lemma voted_stays_voted_witness :
  ∃ sys', run late_request [0%nat] = Some sys' ∧ marked (sys_store sys') "v1".
Proof.
  destruct (run late_request [0%nat]) as [sys'|] eqn:Hrun;
    [|by vm_compute in Hrun].
  exists sys'. split; [done|].
  exact (voted_stays_voted late_request [0%nat] sys' "v1" Hrun eq_refl).
Defined.

Lemma voted_is_final_witness :
  [AlreadyVoted] !! 0%nat = Some AlreadyVoted
  ∧ ballots_of (w_db after_the_vote) "v1" = ballots_of (w_db after_the_vote) "v1".
Proof.
  destruct (voted_is_final after_the_vote [PostVote "v1" "B"] [AlreadyVoted]
              after_the_vote "v1" eq_refl eq_refl) as [Hanswers Hballots].
  split; [exact (Hanswers 0%nat "B" eq_refl)|exact Hballots].
Defined.

Lemma no_second_vote_in_sequence_witness :
  [Registered "v1"; VoteRegistered; AlreadyVoted] !! 2%nat = Some AlreadyVoted.
Proof.
  exact (no_second_vote_in_sequence polling_day three_requests
           [Registered "v1"; VoteRegistered; AlreadyVoted] polls_closed "v1"
           1%nat 2%nat "A" "B" polling_day_served eq_refl eq_refl
           ltac:(lia) eq_refl).
Defined.

Lemma user_ids_stay_unique_witness :
  NoDup (map user_id (users (w_db polls_closed))).
Proof.
  exact (proj1 user_ids_stay_unique polling_day three_requests
           [Registered "v1"; VoteRegistered; AlreadyVoted] polls_closed
           (NoDup_nil_2 (A := string)) eq_refl).
Defined.

Lemma capture_image_returns_witness :
  ∃ before frame,
    camera_roll = (before ++ frame :: [escape])%list
    ∧ Forall (passed_over "face") before
    ∧ ret frame = true
    ∧ match detected "face" frame with
      | roi :: _ =>
          Some "voters/faces/v1.jpg" = Some (capture_path "v1" "face")
          ∧ <["voters/faces/v1.jpg" := face_a]> (∅ : gmap string Gray)
            = store_file ∅ (capture_path "v1" "face") roi
      | [] => key frame = 27 ∧ Some "voters/faces/v1.jpg" = None
              ∧ <["voters/faces/v1.jpg" := face_a]> (∅ : gmap string Gray) = ∅
      end.
Proof.
  exact (capture_image_returns ∅ camera_roll "v1" "face"
           (Some "voters/faces/v1.jpg") (<["voters/faces/v1.jpg" := face_a]> ∅)
           [escape] eq_refl).
Defined.

Lemma capture_image_folder_witness :
  (<["voters/faces/v2.jpg" := face_b]> enrolled_fs) !! "voters/faces/v1.jpg"
  = enrolled_fs !! "voters/faces/v1.jpg".
Proof.
  destruct (capture_image_folder enrolled_fs [seen face_b eye_b] "v2" "face"
              (Some "voters/faces/v2.jpg")
              (<["voters/faces/v2.jpg" := face_b]> enrolled_fs) [] eq_refl)
    as [_ Hpath].
  destruct (Hpath "voters/faces/v2.jpg" eq_refl) as (_ & Hother & _).
  apply Hother. discriminate.
Defined.

Lemma mark_voted_edge_cases_witness :
  mark_voted enrolled_db "ghost" = enrolled_db.
Proof.
  destruct (mark_voted_edge_cases enrolled_db "ghost" "v1") as [Habsent _].
  exact (Habsent eq_refl).
Defined.

Lemma vote_without_template_witness :
  VerificationFailed ≠ VoteRegistered
  ∧ w_db (mkWorld no_template_db
            (<["voters/eyes/v1.jpg" := eye_a]> (<["voters/faces/v1.jpg" := face_a]> ∅))
            [] : World Gray Gray)
    = w_db no_template_booth.
Proof.
  exact (vote_without_template no_template_booth "v1" "A"
           (mkUser 1 "v1" None None 0) VerificationFailed _
           eq_refl (or_introl eq_refl) eq_refl).
Defined.

Lemma vote_accepts_any_capture_witness :
  vote impostor_at_the_booth "v1" "B"
  = Some (VoteRegistered,
          mkWorld (mark_voted (save_vote enrolled_db "v1" "B") "v1") impostor_fs []).
Proof.
  exact (vote_accepts_any_capture impostor_at_the_booth "v1" "B"
           "voters/faces/v1.jpg" (<["voters/faces/v1.jpg" := face_b]> enrolled_fs)
           [seen face_b eye_b]
           "voters/eyes/v1.jpg" impostor_fs []
           (mkUser 1 "v1" (Some "voters/faces/v1.jpg") (Some "voters/eyes/v1.jpg") 0)
           face_b eye_b
           sample_self_correlation eq_refl eq_refl eq_refl eq_refl eq_refl eq_refl
           eq_refl eq_refl).
Defined.

Lemma vote_leaves_other_voters_witness :
  get_user (w_db after_the_vote) "v2" = get_user (w_db at_the_booth) "v2"
  ∧ ballots_of (w_db after_the_vote) "v2" = ballots_of (w_db at_the_booth) "v2".
Proof.
  apply (vote_leaves_other_voters at_the_booth "v1" "A" VoteRegistered
           after_the_vote "v2" booth_vote_registered).
  discriminate.
Defined.

Lemma ballots_match_answers_witness :
  length (votes (w_db polls_closed))
  = (length (votes (w_db polling_day))
     + length (filter (fun resp => resp = VoteRegistered)
                      [Registered "v1"; VoteRegistered; AlreadyVoted]))%nat.
Proof.
  exact (ballots_match_answers polling_day three_requests
           [Registered "v1"; VoteRegistered; AlreadyVoted] polls_closed eq_refl).
Defined.

Lemma render_inj_witness : UserNotFound = UserNotFound.
Proof. exact (render_inj UserNotFound UserNotFound eq_refl). Defined.

Lemma ballots_bounded_by_requests_witness :
  ∃ sys', run two_requests racy_schedule = Some sys'
          ∧ (length (ballots_of (s_db (sys_store sys')) "v1")
             + savers "v1" (sys_threads sys')
             ≤ length (ballots_of (s_db (sys_store two_requests)) "v1")
               + savers "v1" (sys_threads two_requests))%nat.
Proof.
  destruct (run two_requests racy_schedule) as [sys'|] eqn:Hrun;
    [|by vm_compute in Hrun].
  exists sys'. split; [done|].
  exact (ballots_bounded_by_requests two_requests racy_schedule sys' "v1" Hrun).
Defined.

End Instances.

(** ** The connection a refused registration leaves open *)

Section Leak.

Context {Color File : Type} `{!OpenCV Color File}.
Implicit Types (d : Locking.Database) (s : Locking.Server Color File)
  (w : World Color File) (uid cand : string).

#[local] Ltac settle :=
  intros;
  repeat match goal with
         | H : _ ∧ _ |- _ => destruct H
         | H : _ ∨ _ |- _ => destruct H
         | H : is_Some _ |- _ => destruct H
         end;
  eauto; try done; try congruence.

Lemma get_user_add_user_other (db : DB) uid fp ep uid' :
  uid' ≠ uid → get_user (add_user db uid fp ep).2 uid' = get_user db uid'.
Proof.
  intros Hne. destruct (get_user db uid) as [u|] eqn:Hu.
  - by rewrite (add_user_present _ _ _ _ _ Hu).
  - destruct (add_user_fresh db uid fp ep Hu) as [id ->]. simpl.
    unfold get_user. simpl. rewrite find_app_user.
    destruct (find (user_matches uid') (users db)); [done|]. simpl.
    unfold user_matches. simpl. by rewrite bool_decide_eq_false_2.
Qed.

(** X12. [add_user] raises exactly when a connection left open holds the
    lock, and then changes nothing; with the lock free it returns [False]
    exactly when the [user_id] has a row, leaving the tables as they were and
    the lock held, and [True] otherwise, with the lock free.  In every case
    the record of every other voter and the ballots are as before. *)
Theorem add_user_under_lock d uid fp ep :
  let out := (Locking.add_user d uid fp ep).1 in
  let d' := (Locking.add_user d uid fp ep).2 in
  (out = Locking.OperationalError ↔ Locking.locked d = true)
  ∧ (out = Locking.Returned false
     ↔ Locking.locked d = false ∧ is_Some (get_user (Locking.tables d) uid))
  ∧ (out = Locking.Returned true
     ↔ Locking.locked d = false ∧ get_user (Locking.tables d) uid = None)
  ∧ (Locking.locked d' = true
     ↔ Locking.locked d = true ∨ out = Locking.Returned false)
  ∧ (out ≠ Locking.Returned true → Locking.tables d' = Locking.tables d)
  ∧ (∀ uid', uid' ≠ uid →
       get_user (Locking.tables d') uid' = get_user (Locking.tables d) uid')
  ∧ votes (Locking.tables d') = votes (Locking.tables d).
Proof.
  destruct d as [db held]. unfold Locking.add_user. simpl.
  destruct held; simpl.
  - repeat split; settle.
  - destruct (get_user db uid) as [u|] eqn:Hu.
    + rewrite (add_user_present _ _ _ _ _ Hu). simpl.
      repeat split; settle.
    + pose proof (get_user_add_user_other db uid fp ep) as Hother.
      pose proof (votes_add_user db uid fp ep) as Hvotes.
      destruct (add_user_fresh db uid fp ep Hu) as [id Hadd].
      rewrite Hadd in *. simpl in *.
      repeat split; settle.
Qed.




Lemma handle_with_lock_free w r resp w' :
  handle w r = Some (resp, w') →
  Locking.handle (Locking.with_lock false w) r
  = Some (Locking.Returned resp,
          Locking.with_lock (bool_decide (resp = UserExists)) w').
Proof.
  destruct r as [uid|uid cand]; simpl.
  - unfold register, Locking.register, Locking.add_user. simpl.
    destruct (capture_image _ _ _ "face") as [[[fp fs1] cam1]|]; [|done].
    destruct (capture_image fs1 cam1 _ "eye") as [[[ep fs2] cam2]|]; [|done].
    destruct (add_user (w_db w) uid fp ep) as [[] db']; by intros [= <- <-].
  - unfold vote, Locking.vote, Locking.save_vote, Locking.mark_voted. simpl.
    destruct (has_already_voted (w_db w) uid); [by intros [= <- <-]|].
    destruct (capture_image _ _ _ "face") as [[[nf fs1] cam1]|]; [|done].
    destruct (capture_image fs1 cam1 _ "eye") as [[[ne fs2] cam2]|]; [|done].
    destruct (get_user (w_db w) uid) as [user|]; [|by intros [= <- <-]].
    destruct (_ && _); by intros [= <- <-].
Qed.

(** X25. The handlers by themselves and the handlers with the lock agree
    wherever the lock stays out of the way: when the connection a refused
    registration leaves open is collected before the next request, and also
    when no registration is refused, every request gets the answer and leaves
    the tables, the folder and the camera as the handlers by themselves
    say. *)
Theorem handlers_agree_when_collected w requests responses w' :
  serve w requests = Some (responses, w') →
  Locking.serve (Locking.with_lock false w)
    (flat_map (fun r => [Locking.Post r; Locking.Collect]) requests)
  = Some (Locking.Returned <$> responses, Locking.with_lock false w')
  ∧ (UserExists ∉ responses →
     Locking.serve (Locking.with_lock false w) (Locking.Post <$> requests)
     = Some (Locking.Returned <$> responses, Locking.with_lock false w')).
Proof.
  revert w responses. induction requests as [|r requests IH]; intros w responses Hs.
  - injection Hs as <- <-. by split.
  - simpl in Hs. destruct (handle w r) as [[resp w1]|] eqn:Hr; [|done].
    destruct (serve w1 requests) as [[resps w2]|] eqn:Hs'; [|done].
    injection Hs as <- <-. destruct (IH _ _ Hs') as [IH1 IH2].
    apply handle_with_lock_free in Hr. split.
    + simpl. rewrite Hr.
      change (Locking.mkServer _ _ _) with (Locking.with_lock false w1).
      by rewrite IH1.
    + intros Hno. apply not_elem_of_cons in Hno as [Hne Hno].
      specialize (IH2 Hno).
      rewrite fmap_cons. simpl. rewrite Hr, bool_decide_eq_false_2 by done.
      by rewrite IH2.
Qed.

End Leak.

(** ** The path columns *)

Section Paths.

Context {Color File : Type} `{!OpenCV Color File}.

(** X26. No request changes the id, the [user_id] or the two path columns
    of a row: whatever requests are handled, one after the other or
    interleaved, every voter who has a row keeps the [face_path] and
    [eye_path] first stored.  (The files those paths name are another
    matter.) *)
Theorem path_columns_stay :
  (∀ (w : World Color File) requests responses w' uid u,
      serve w requests = Some (responses, w') →
      get_user (w_db w) uid = Some u →
      ∃ hv, get_user (w_db w') uid
            = Some (mkUser (u_id u) (user_id u) (face_path u) (eye_path u) hv))
  ∧ (∀ (sys : System Color File) schedule sys' uid u,
        run sys schedule = Some sys' →
        get_user (s_db (sys_store sys)) uid = Some u →
        ∃ hv, get_user (s_db (sys_store sys')) uid
              = Some (mkUser (u_id u) (user_id u) (face_path u) (eye_path u) hv)).
Proof.
  split.
  - intros w requests responses w' uid u Hs Hu.
    destruct (serve_history _ _ _ _ Hs) as [ops ->].
    by apply get_user_apply_ops.
  - intros sys schedule sys' uid u Hrun Hu.
    destruct (run_history _ _ _ Hrun) as [ops ->].
    by apply get_user_apply_ops.
Qed.

End Paths.

Section LeakInstances.

Import Sample.


Lemma add_user_under_lock_witness :
  (Locking.add_user (Locking.mkDatabase enrolled_db false) "v1" None None).1
  = Locking.Returned false
  ∧ get_user
      (Locking.tables
         (Locking.add_user (Locking.mkDatabase enrolled_db false) "v2" None None).2)
      "v1"
    = get_user enrolled_db "v1".
Proof.
  split.
  - destruct (add_user_under_lock (Locking.mkDatabase enrolled_db false) "v1"
                None None) as (_ & Hfalse & _).
    apply Hfalse. split; [reflexivity|]. by eexists.
  - destruct (add_user_under_lock (Locking.mkDatabase enrolled_db false) "v2"
                None None) as (_ & _ & _ & _ & _ & Hother & _).
    apply Hother. discriminate.
Defined.

Lemma busy_day_served :
  serve busy_day busy_requests
  = Some ([Registered "v1"; UserExists; VoteRegistered], after_the_vote).
Proof. reflexivity. Qed.

Lemma handlers_agree_when_collected_witness :
  Locking.serve (Locking.with_lock false busy_day)
    (flat_map (fun r => [Locking.Post r; Locking.Collect]) busy_requests)
  = Some (Locking.Returned <$> [Registered "v1"; UserExists; VoteRegistered],
          Locking.with_lock false after_the_vote).
Proof.
  exact (proj1 (handlers_agree_when_collected busy_day busy_requests
                  [Registered "v1"; UserExists; VoteRegistered] after_the_vote
                  busy_day_served)).
Defined.

Lemma path_columns_stay_witness :
  ∃ hv, get_user (w_db after_the_vote) "v1"
        = Some (mkUser 1 "v1" (Some "voters/faces/v1.jpg")
                  (Some "voters/eyes/v1.jpg") hv).
Proof.
  exact (proj1 path_columns_stay at_the_booth [PostVote "v1" "A"] [VoteRegistered]
           after_the_vote "v1"
           (mkUser 1 "v1" (Some "voters/faces/v1.jpg") (Some "voters/eyes/v1.jpg") 0)
           eq_refl eq_refl).
Defined.

End LeakInstances.
